(** * Karrio / purplship fragment: Dicom settings, Fedex package
    descriptor and the Order GraphQL extension.

  The development embeds the three Python modules of the fragment
  shallowly:
  - [extensions/dicom/purplship/providers/dicom/utils.py]  -> [Module Dicom]
  - [extensions/fedex/setup.py]                            -> [Module Fedex]
  - [server/graph/extension/orders/__init__.py]            -> [Module Orders]
  on top of a small model of the Python values they use ([Module Py]). *)

From Stdlib Require Import NArith Lia Ascii String List Bool.
From stdpp Require Import base option list strings gmap.

Local Open Scope N_scope.

(** ** Python values: [str], [bytes], exceptions *)
Module Py.

(** A Python [str] is a sequence of Unicode code points; [bytes] is a
    sequence of octets.  Both are lists of numbers, the range being
    what the operations below check or establish. *)
Definition str := list N.
Definition bytes := list N.

Inductive exn :=
| UnicodeEncodeError
| UnicodeDecodeError
| Unauthorized
| FieldError
| ValueError.

(** Outcome of an expression that may raise. *)
Inductive result (A : Type) :=
| Ok (a : A)
| Raise (e : exn).
Arguments Ok {A} a.
Arguments Raise {A} e.

Definition bind {A B} (r : result A) (k : A -> result B) : result B :=
  match r with
  | Ok a => k a
  | Raise e => Raise e
  end.

(** A source literal, read as a [str] (ASCII literals only). *)
Definition lit (s : string) : str :=
  List.map N_of_ascii (list_ascii_of_string s).

(** ["%s:%s" % (a, b)] for two [str] operands. *)
Definition format_pair (a b : str) : str := a ++ lit ":" ++ b.

(** [str.encode("utf-8")] with the strict error handler, for one code
    point: one to four octets by range, and an error for a surrogate.  A
    [str] holds no value above 0x10FFFF; the model refuses one. *)
Definition utf8_char (ch : N) : result bytes :=
  if ch <? 0x80 then
    Ok [ch]
  else if ch <? 0x800 then
    Ok [N.lor 0xC0 (N.shiftr ch 6);
        N.lor 0x80 (N.land ch 0x3F)]
  else if (0xD800 <=? ch) && (ch <=? 0xDFFF) then
    Raise UnicodeEncodeError
  else if ch <? 0x10000 then
    Ok [N.lor 0xE0 (N.shiftr ch 12);
        N.lor 0x80 (N.land (N.shiftr ch 6) 0x3F);
        N.lor 0x80 (N.land ch 0x3F)]
  else if ch <? 0x110000 then
    Ok [N.lor 0xF0 (N.shiftr ch 18);
        N.lor 0x80 (N.land (N.shiftr ch 12) 0x3F);
        N.lor 0x80 (N.land (N.shiftr ch 6) 0x3F);
        N.lor 0x80 (N.land ch 0x3F)]
  else
    Raise UnicodeEncodeError.

Fixpoint encode_utf8 (s : str) : result bytes :=
  match s with
  | [] => Ok []
  | ch :: s' =>
      bind (utf8_char ch) (fun b =>
      bind (encode_utf8 s') (fun bs => Ok (b ++ bs)))
  end.

(** [bytes.decode("ascii")], strict error handler. *)
Fixpoint decode_ascii (b : bytes) : result str :=
  match b with
  | [] => Ok []
  | x :: b' =>
      if x <? 0x80
      then bind (decode_ascii b') (fun s => Ok (x :: s))
      else Raise UnicodeDecodeError
  end.

(** The Base64 alphabet of RFC 4648, table 1, and the pad character. *)
Definition b64_alphabet : bytes :=
  lit "ABCDEFGHIJKLMNOPQRSTUVWXYZabcdefghijklmnopqrstuvwxyz0123456789+/".
Definition b64_pad : N := 61.

Definition b64_char (i : N) : N := List.nth (N.to_nat i) b64_alphabet b64_pad.

(** [base64.b64encode], by shifts and masks: three octets give four
    characters; a final group of one or two octets is padded with [=]. *)
Fixpoint b64encode (b : bytes) : bytes :=
  match b with
  | [] => []
  | [b0] =>
      [b64_char (N.shiftr b0 2);
       b64_char (N.shiftl (N.land b0 0x3) 4);
       b64_pad; b64_pad]
  | [b0; b1] =>
      [b64_char (N.shiftr b0 2);
       b64_char (N.lor (N.shiftl (N.land b0 0x3) 4) (N.shiftr b1 4));
       b64_char (N.shiftl (N.land b1 0xF) 2);
       b64_pad]
  | b0 :: b1 :: b2 :: rest =>
      b64_char (N.shiftr b0 2)
      :: b64_char (N.lor (N.shiftl (N.land b0 0x3) 4) (N.shiftr b1 4))
      :: b64_char (N.lor (N.shiftl (N.land b1 0xF) 2) (N.shiftr b2 6))
      :: b64_char (N.land b2 0x3F)
      :: b64encode rest
  end.

End Py.

(** ** [providers/dicom/utils.py]: Dicom connection settings *)
Module Dicom.
Import Py.

(** Modelled from the spec: the base class [purplship.core.settings.Settings]
    is not part of the fragment; of what it provides only the boolean
    [test] flag is read here and is kept as a field.  The other fields are
    the instance attributes the class declares: [username] and [password]
    are required, [billing_account] and [id] default to [None]. *)
Record Settings := mkSettings {
  username : str;
  password : str;
  billing_account : option str;
  id : option str;
  test : bool
}.

(** A method of the object: it receives [self] and gives back its
    outcome together with the object as it is afterwards. *)
Definition method (A : Type) : Type := Settings -> result A * Settings.

Definition carrier_name : method str :=
  fun self => (Ok (lit "dicom"), self).

Definition server_url : method str :=
  fun self =>
    (Ok (if test self
         then lit "https://ct.soa-gw.canadapost.ca"
         else lit "https://soa-gw.canadapost.ca"),
     self).

Definition authorization : method str :=
  fun self =>
    let pair := format_pair (username self) (password self) in
    (bind (encode_utf8 pair) (fun b => decode_ascii (b64encode b)), self).

(** Attribute assignment, [self.username = u] and [self.password = p]:
    the language's own, the class defines no setter. *)
Definition set_username (u : str) : method unit :=
  fun self =>
    (Ok tt,
     {| username := u; password := password self;
        billing_account := billing_account self; id := id self;
        test := test self |}).

Definition set_password (p : str) : method unit :=
  fun self =>
    (Ok tt,
     {| username := username self; password := p;
        billing_account := billing_account self; id := id self;
        test := test self |}).

(** Running one method after another on the same object. *)
Definition and_then {A B} (m : method A) (k : method B) : method B :=
  fun self =>
    match m self with
    | (Ok _, self') => k self'
    | (Raise e, self') => (Raise e, self')
    end.

End Dicom.

(** ** The credential token in the words of the specification

  The Basic-Auth token is described as the standard Base64 encoding of
  the UTF-8 octets of ["<username>:<password>"].  The two encodings are
  written here as their standards state them (Unicode table 3-6 by value
  ranges, RFC 4648 as a stream of bits cut into 6-bit groups), to be
  compared with the shift-and-mask code of [Py]. *)
Module Standard.
Import Py.

Definition scalar_value (ch : N) : bool :=
  (ch <? 0xD800) || ((0xDFFF <? ch) && (ch <? 0x110000)).

Definition utf8_octets_of (ch : N) : bytes :=
  if ch <? 128 then [ch]
  else if ch <? 2048 then [192 + ch / 64; 128 + ch mod 64]
  else if ch <? 65536 then
    [224 + ch / 4096; 128 + (ch / 64) mod 64; 128 + ch mod 64]
  else
    [240 + ch / 262144; 128 + (ch / 4096) mod 64;
     128 + (ch / 64) mod 64; 128 + ch mod 64].

Definition utf8_octets (s : str) : result bytes :=
  if forallb scalar_value s
  then Ok (List.concat (List.map utf8_octets_of s))
  else Raise UnicodeEncodeError.

(** The bit distribution of UTF-8 (Unicode, table 3-6) as a relation
    between a scalar value and its octets: [x3], [x2], [x1] and [x0] are
    the groups of bits of the value, most significant first. *)
Inductive utf8_shape (ch : N) : bytes -> Prop :=
| shape_1 : ch < 128 -> utf8_shape ch [ch]
| shape_2 x1 x0 :
    x1 < 32 -> x0 < 64 -> 128 <= ch -> ch = 64 * x1 + x0 ->
    utf8_shape ch [192 + x1; 128 + x0]
| shape_3 x2 x1 x0 :
    x2 < 16 -> x1 < 64 -> x0 < 64 -> ch = 4096 * x2 + 64 * x1 + x0 ->
    utf8_shape ch [224 + x2; 128 + x1; 128 + x0]
| shape_4 x3 x2 x1 x0 :
    x3 < 8 -> x2 < 64 -> x1 < 64 -> x0 < 64 ->
    ch = 262144 * x3 + 4096 * x2 + 64 * x1 + x0 ->
    utf8_shape ch [240 + x3; 128 + x2; 128 + x1; 128 + x0].

(** Bits of an octet, most significant first. *)
Definition bits_of_octet (b : N) : list bool :=
  List.map (N.testbit b) [7; 6; 5; 4; 3; 2; 1; 0].

Definition bit_stream (b : bytes) : list bool :=
  List.concat (List.map bits_of_octet b).

Definition value_of_bits (bs : list bool) : N :=
  fold_left (fun acc (x : bool) => 2 * acc + (if x then 1 else 0)) bs 0.

(** The stream cut into 6-bit groups; a shorter last group is
    completed with zero bits on the right. *)
Fixpoint sextets (bs : list bool) : list N :=
  match bs with
  | [] => []
  | x5 :: x4 :: x3 :: x2 :: x1 :: x0 :: rest =>
      value_of_bits [x5; x4; x3; x2; x1; x0] :: sextets rest
  | short =>
      [value_of_bits (firstn 6 (short ++ repeat false 6))]
  end.

(** Number of [=] that complete the text to a multiple of four
    characters. *)
Definition padding (n : nat) : nat := ((4 - n mod 4) mod 4)%nat.

Definition base64 (b : bytes) : bytes :=
  let text := List.map b64_char (sextets (bit_stream b)) in
  text ++ repeat b64_pad (padding (List.length text)).

Definition ascii_text (b : bytes) : result str :=
  if forallb (fun x => x <? 128) b then Ok b else Raise UnicodeDecodeError.

Definition basic_credentials (user pass : str) : result str :=
  bind (utf8_octets (user ++ lit ":" ++ pass)) (fun octets =>
    ascii_text (base64 octets)).

End Standard.

(** ** [extensions/fedex/setup.py]: package descriptor *)
Module Fedex.

(** Shell-style matching as [fnmatch] does it, for patterns made of
    literal characters, [?] and [*]. *)
Fixpoint fnmatch (pat : list ascii) (name : list ascii) : bool :=
  match pat with
  | [] => match name with [] => true | _ => false end
  | p :: pat' =>
      if Ascii.eqb p "*" then
        (fix star (n : list ascii) : bool :=
           fnmatch pat' n
           || match n with
              | [] => false
              | _ :: n' => star n'
              end) name
      else
        match name with
        | [] => false
        | c :: name' =>
            (Ascii.eqb p "?" || Ascii.eqb p c) && fnmatch pat' name'
        end
  end.

Definition matches_any (patterns : list string) (name : string) : bool :=
  existsb
    (fun pat => fnmatch (list_ascii_of_string pat) (list_ascii_of_string name))
    patterns.

(** [find_namespace_packages(exclude=...)]: of the dotted names [found]
    of the directories that the finder takes for packages under the
    project root, those that match no excluded pattern (the include
    pattern is the default ["*"]). *)
Definition find_namespace_packages
    (exclude : list string) (found : list string) : list string :=
  List.filter (fun name => negb (matches_any exclude name)) found.

(** The keyword arguments handed to [setup]. *)
Record SetupArgs := mkSetupArgs {
  name : string;
  version : string;
  description : string;
  url : string;
  author : string;
  license : string;
  packages : list string;
  install_requires : list string;
  classifiers : list string;
  zip_safe : bool
}.

(** The call of [setup.py], for the directories [found] on disk. *)
Definition setup (found : list string) : SetupArgs :=
  {| name := "purplship.fedex";
     version := "2020.5.0";
     description := "Multi-carrier shipping API integration with python";
     url := "https://github.com/PurplShip/purplship";
     author := "PurplShip";
     license := "LGPLv3";
     packages := find_namespace_packages ["tests*"%string] found;
     install_requires := ["purplship"; "py-fedex"]%string;
     classifiers :=
       ["Programming Language :: Python :: 3";
        "License :: OSI Approved :: GNU Lesser General Public License v3 (LGPLv3)";
        "Operating System :: OS Independent"]%string;
     zip_safe := false |}.

End Fedex.

(** ** [server/graph/extension/orders/__init__.py]: the Order queries *)
Module Orders.
Import Py.

Section Graph.

(** What the fragment uses of the platform without defining it: the
    [Order] rows, the per-call request context, the identities a context
    may carry, the values of filter arguments, and the root object of the
    query. *)
Context {Order RequestContext Identity Value Root : Type}.

(** The authenticated identity a context carries, if any. *)
Context (user : RequestContext -> option Identity).

(** The [info] argument of a resolver. *)
Record ResolveInfo := mkInfo {
  context : RequestContext
}.

(** A result set of the ORM: its rows, in the order in which [first]
    reads them (the ordering of the result set, or that of the primary
    key when it has none). *)
Definition QuerySet := list Order.

(** The data layer: [visible ctx] are the rows that
    [Order.access_by(ctx)] selects.  [reading field v] is what the ORM
    makes of the keyword filter [field=v]: a test on rows, or the error it
    raises when it cannot resolve the keyword into a field or lookup of
    [Order] ([FieldError]) or cannot read the value. *)
Context (visible : RequestContext -> QuerySet).
Context (reading : string -> Value -> result (Order -> bool)).

(** Resolvers run against the data layer, which records every scope
    it is asked for. *)
Definition Trace := list RequestContext.
Definition M (A : Type) : Type := Trace -> result A * Trace.

Definition ret {A} (a : A) : M A := fun t => (Ok a, t).

Definition raise {A} (e : exn) : M A := fun t => (Raise e, t).

Definition mbind {A B} (m : M A) (k : A -> M B) : M B :=
  fun t =>
    match m t with
    | (Ok a, t') => k a t'
    | (Raise e, t') => (Raise e, t')
    end.

Notation "x <- m ;; k" := (mbind m (fun x => k))
  (at level 100, m at next level, right associativity).

(** [models.Order.access_by(context)] *)
Definition access_by (ctx : RequestContext) : M QuerySet :=
  fun t => (Ok (visible ctx), t ++ [ctx]).

(** An outcome that touches no state, as a step of a resolver. *)
Definition lift {A} (r : result A) : M A := fun t => (r, t).

(** Whether the keyword filter [field=v] holds on a row; a keyword that
    the ORM refuses holds on none. *)
Definition holds (field : string) (v : Value) (row : Order) : bool :=
  match reading field v with
  | Ok test => test row
  | Raise _ => false
  end.

Definition satisfies (kwargs : gmap string Value) (row : Order) : bool :=
  bool_decide (map_Forall (fun field v => holds field v row = true) kwargs).

(** A keyword that the ORM refuses, with the error it raises for it. *)
Definition refusal (kw : string * Value) : option (string * exn) :=
  match reading (fst kw) (snd kw) with
  | Ok _ => None
  | Raise e => Some (fst kw, e)
  end.

(** The entry with the least key. *)
Fixpoint least_key (l : list (string * exn)) : option (string * exn) :=
  match l with
  | [] => None
  | x :: l' =>
      match least_key l' with
      | None => Some x
      | Some y => if String.leb (fst x) (fst y) then Some x else Some y
      end
  end.

(** [filter] reads its keywords in sorted order and raises at the first
    one that the ORM refuses. *)
Definition first_refusal (kwargs : gmap string Value) : option (string * exn) :=
  least_key (omap refusal (map_to_list kwargs)).

(** The ORM has a reading for every keyword. *)
Definition accepts (kwargs : gmap string Value) : Prop :=
  forall field v, kwargs !! field = Some v ->
    exists test, reading field v = Ok test.

(** [QuerySet.filter] on the keyword arguments: the error of the first
    refused keyword if there is one, and otherwise the rows on which
    every keyword holds. *)
Definition qs_filter (kwargs : gmap string Value) (qs : QuerySet)
    : result QuerySet :=
  match first_refusal kwargs with
  | Some (_, e) => Raise e
  | None => Ok (List.filter (satisfies kwargs) qs)
  end.

(** [QuerySet.first()]: the first row, or [None]. *)
Definition first (qs : QuerySet) : option Order :=
  match qs with
  | [] => None
  | row :: _ => Some row
  end.

Definition resolver (A : Type) : Type :=
  Root -> ResolveInfo -> gmap string Value -> M A.

(** Modelled from the spec: the decorator [utils.login_required] of
    [purplship.server.graph.utils] is not part of the fragment.  Before
    the wrapped resolver runs it looks for an authenticated identity in
    the calling context; without one the call fails with an Unauthorized
    error and the wrapped body does not run; with one the wrapped body
    runs on the very same arguments. *)
Definition login_required {A} (func : resolver A) : resolver A :=
  fun self info kwargs =>
    match user (context info) with
    | None => raise Unauthorized
    | Some _ => func self info kwargs
    end.

(** The bodies under the decorator. *)
Definition resolve_order_body : resolver (option Order) :=
  fun self info kwargs =>
    qs <- access_by (context info) ;;
    found <- lift (qs_filter kwargs qs) ;;
    ret (first found).

Definition resolve_orders_body : resolver QuerySet :=
  fun self info kwargs =>
    access_by (context info).

Definition resolve_order : resolver (option Order) :=
  login_required resolve_order_body.

Definition resolve_orders : resolver QuerySet :=
  login_required resolve_orders_body.

End Graph.

Arguments ResolveInfo : clear implicits.

End Orders.

(** ** Sample data

    A small stand-in for the platform, on which the definitions above can
    be run: orders are their numbers, identities are names, a request
    context is a path with the name of whoever is logged in, and the
    filters are [id] (the number itself) and [id__gte] (a lower bound);
    any other keyword is refused with [FieldError]. *)
Module Sample.
Import Py.

Record request := mkRequest {
  path : string;
  logged_in : option string
}.

Definition visible (ctx : request) : list nat :=
  match logged_in ctx with
  | Some _ => [3; 5; 8]%nat
  | None => []
  end.

Definition reading (field : string) (v : nat) : result (nat -> bool) :=
  if String.eqb field "id" then Ok (fun row => Nat.eqb row v)
  else if String.eqb field "id__gte" then Ok (fun row => Nat.leb v row)
  else Raise FieldError.

Definition anonymous : Orders.ResolveInfo request :=
  Orders.mkInfo (mkRequest "/graphql" None).

Definition alice : Orders.ResolveInfo request :=
  Orders.mkInfo (mkRequest "/graphql" (Some "alice"%string)).

Definition by_id (n : nat) : gmap string nat := {[ "id"%string := n ]}.

Definition resolve_order :=
  Orders.resolve_order (Root := unit) logged_in visible reading.
Definition resolve_orders :=
  Orders.resolve_orders (Value := nat) (Root := unit) logged_in visible.

Definition settings : Dicom.Settings :=
  Dicom.mkSettings (lit "alice") (lit "secret") None None false.

End Sample.

(** * Properties *)

Import Py.

(** ** Shift-and-mask code against the arithmetic of the standards *)

Lemma below_forall (n : N) (P : N -> bool) :
  forallb P (List.map N.of_nat (seq 0 (N.to_nat n))) = true ->
  forall x, x < n -> P x = true.
Proof.
  intros Hall x Hx. rewrite forallb_forall in Hall. apply Hall.
  apply in_map_iff. exists (N.to_nat x). split.
  - apply N2Nat.id.
  - apply in_seq. lia.
Qed.

Lemma below_forall2 (n m : N) (P : N -> N -> bool) :
  forallb (fun x => forallb (P x) (List.map N.of_nat (seq 0 (N.to_nat m))))
          (List.map N.of_nat (seq 0 (N.to_nat n))) = true ->
  forall x y, x < n -> y < m -> P x y = true.
Proof.
  intros Hall x y Hx Hy.
  apply (below_forall m (P x)); [|exact Hy].
  now apply (below_forall n (fun x => forallb (P x) _)).
Qed.

Ltac by_enumeration n :=
  let x := fresh "x" in
  let H := fresh "H" in
  intros x H; apply N.eqb_eq; revert x H;
  match goal with
  | |- forall x, _ -> ?P = true =>
      apply (below_forall n (fun x => P))
  end; vm_compute; reflexivity.

Lemma lor_continuation : forall y, y < 64 -> N.lor 0x80 y = 128 + y.
Proof. by_enumeration 64. Qed.

Lemma lor_lead2 : forall y, y < 32 -> N.lor 0xC0 y = 192 + y.
Proof. by_enumeration 32. Qed.

Lemma lor_lead3 : forall y, y < 16 -> N.lor 0xE0 y = 224 + y.
Proof. by_enumeration 16. Qed.

Lemma lor_lead4 : forall y, y < 8 -> N.lor 0xF0 y = 240 + y.
Proof. by_enumeration 8. Qed.

Lemma low_six_bits (x : N) : N.land x 0x3F = x mod 64.
Proof. exact (N.land_ones x 6). Qed.

Lemma continuation_octet (x : N) :
  N.lor 0x80 (N.land x 0x3F) = 128 + x mod 64.
Proof.
  rewrite low_six_bits. apply lor_continuation. now apply N.mod_lt.
Qed.

Lemma div_mod_split (a d : N) :
  d <> 0 -> a = d * (a / d) + a mod d /\ a mod d < d.
Proof.
  intros Hd. split; [now apply N.div_mod | now apply N.mod_lt].
Qed.

Ltac split_div a d :=
  let H := fresh "Hdiv" in
  let Hlt := fresh "Hmod" in
  let q := fresh "q" in
  let r := fresh "r" in
  destruct (div_mod_split a d) as [H Hlt]; [discriminate|];
  set (q := a / d) in *; set (r := a mod d) in *; clearbody q r.

Lemma utf8_char_standard (ch : N) :
  utf8_char ch =
    if Standard.scalar_value ch
    then Ok (Standard.utf8_octets_of ch)
    else Raise UnicodeEncodeError.
Proof.
  unfold utf8_char, Standard.scalar_value, Standard.utf8_octets_of.
  rewrite !continuation_octet, !N.shiftr_div_pow2.
  change (2 ^ 6) with 64. change (2 ^ 12) with 4096. change (2 ^ 18) with 262144.
  destruct (N.ltb_spec ch 128) as [H1|H1].
  { replace (ch <? 0xD800) with true by (symmetry; apply N.ltb_lt; lia).
    reflexivity. }
  destruct (N.ltb_spec ch 2048) as [H2|H2].
  { replace (ch <? 0xD800) with true by (symmetry; apply N.ltb_lt; lia).
    cbn [orb]. rewrite lor_lead2; [reflexivity|].
    split_div ch 64. lia. }
  destruct (N.leb_spec 0xD800 ch) as [H3|H3];
    destruct (N.leb_spec ch 0xDFFF) as [H4|H4]; cbn [andb].
  - replace (ch <? 0xD800) with false by (symmetry; apply N.ltb_ge; lia).
    replace (0xDFFF <? ch) with false by (symmetry; apply N.ltb_ge; lia).
    reflexivity.
  - replace (ch <? 0xD800) with false by (symmetry; apply N.ltb_ge; lia).
    replace (0xDFFF <? ch) with true by (symmetry; apply N.ltb_lt; lia).
    cbn [orb andb].
    destruct (N.ltb_spec ch 65536) as [H5|H5].
    + replace (ch <? 0x110000) with true by (symmetry; apply N.ltb_lt; lia).
      rewrite lor_lead3; [reflexivity|]. split_div ch 4096. lia.
    + destruct (N.ltb_spec ch 0x110000) as [H6|H6]; [|reflexivity].
      rewrite lor_lead4; [reflexivity|]. split_div ch 262144. lia.
  - replace (ch <? 0xD800) with true by (symmetry; apply N.ltb_lt; lia).
    cbn [orb].
    replace (ch <? 65536) with true by (symmetry; apply N.ltb_lt; lia).
    rewrite lor_lead3; [reflexivity|]. split_div ch 4096. lia.
  - lia.
Qed.

Lemma encode_utf8_standard (s : str) :
  encode_utf8 s = Standard.utf8_octets s.
Proof.
  unfold Standard.utf8_octets.
  induction s as [|ch s IH].
  - reflexivity.
  - cbn [encode_utf8 forallb List.map List.concat].
    rewrite utf8_char_standard, IH.
    destruct (Standard.scalar_value ch); cbn [bind andb]; [|reflexivity].
    now destruct (forallb Standard.scalar_value s).
Qed.

Lemma decode_ascii_standard (b : bytes) :
  decode_ascii b = Standard.ascii_text b.
Proof.
  unfold Standard.ascii_text.
  induction b as [|x b IH].
  - reflexivity.
  - cbn [decode_ascii forallb]. rewrite IH.
    destruct (x <? 0x80) eqn:Hx.
    + cbn [andb]. now destruct (forallb _ b).
    + reflexivity.
Qed.

(** ** Base64: groups of three octets against the stream of bits *)

Lemma sextet_1 : forall a, a < 256 ->
  Standard.value_of_bits
    (List.map (N.testbit a) [7; 6; 5; 4; 3; 2]) = N.shiftr a 2.
Proof. by_enumeration 256. Qed.

Lemma sextet_4 : forall a, a < 256 ->
  Standard.value_of_bits
    (List.map (N.testbit a) [5; 4; 3; 2; 1; 0]) = N.land a 0x3F.
Proof. by_enumeration 256. Qed.

Lemma sextet_2_last : forall a, a < 256 ->
  Standard.value_of_bits
    (List.map (N.testbit a) [1; 0] ++ repeat false 4) =
  N.shiftl (N.land a 0x3) 4.
Proof. by_enumeration 256. Qed.

Lemma sextet_3_last : forall a, a < 256 ->
  Standard.value_of_bits
    (List.map (N.testbit a) [3; 2; 1; 0] ++ repeat false 2) =
  N.shiftl (N.land a 0xF) 2.
Proof. by_enumeration 256. Qed.

Ltac by_enumeration2 n :=
  let x := fresh "x" in
  let y := fresh "y" in
  let Hx := fresh "H" in
  let Hy := fresh "H" in
  intros x y Hx Hy; apply N.eqb_eq; revert x y Hx Hy;
  match goal with
  | |- forall x y, _ -> _ -> ?P = true =>
      apply (below_forall2 n n (fun x y => P))
  end; vm_compute; reflexivity.

Lemma sextet_2 : forall a b, a < 256 -> b < 256 ->
  Standard.value_of_bits
    (List.map (N.testbit a) [1; 0] ++ List.map (N.testbit b) [7; 6; 5; 4]) =
  N.lor (N.shiftl (N.land a 0x3) 4) (N.shiftr b 4).
Proof. by_enumeration2 256. Qed.

Lemma sextet_3 : forall a b, a < 256 -> b < 256 ->
  Standard.value_of_bits
    (List.map (N.testbit a) [3; 2; 1; 0] ++ List.map (N.testbit b) [7; 6]) =
  N.lor (N.shiftl (N.land a 0xF) 2) (N.shiftr b 6).
Proof. by_enumeration2 256. Qed.

Lemma list_ind3 {A} (P : list A -> Prop) :
  P [] -> (forall a, P [a]) -> (forall a b, P [a; b]) ->
  (forall a b c l, P l -> P (a :: b :: c :: l)) ->
  forall l, P l.
Proof.
  intros H0 H1 H2 H3.
  fix IH 1. intros [|a [|b [|c l]]];
    [exact H0 | apply H1 | apply H2 | apply H3; apply IH].
Qed.

Lemma padding_four (n : nat) : Standard.padding (4 + n) = Standard.padding n.
Proof.
  unfold Standard.padding.
  replace ((4 + n) mod 4)%nat with (n mod 4)%nat; [reflexivity|].
  rewrite Nat.add_comm. symmetry. exact (Nat.Div0.mod_add n 1 4).
Qed.

Lemma base64_group (a b c : N) (rest : bytes) :
  Standard.base64 (a :: b :: c :: rest) =
    b64_char (Standard.value_of_bits (List.map (N.testbit a) [7; 6; 5; 4; 3; 2]))
    :: b64_char (Standard.value_of_bits
         (List.map (N.testbit a) [1; 0] ++ List.map (N.testbit b) [7; 6; 5; 4]))
    :: b64_char (Standard.value_of_bits
         (List.map (N.testbit b) [3; 2; 1; 0] ++ List.map (N.testbit c) [7; 6]))
    :: b64_char (Standard.value_of_bits (List.map (N.testbit c) [5; 4; 3; 2; 1; 0]))
    :: Standard.base64 rest.
Proof.
  unfold Standard.base64.
  change (Standard.sextets (Standard.bit_stream (a :: b :: c :: rest)))
    with (Standard.value_of_bits (List.map (N.testbit a) [7; 6; 5; 4; 3; 2])
          :: Standard.value_of_bits
               (List.map (N.testbit a) [1; 0] ++ List.map (N.testbit b) [7; 6; 5; 4])
          :: Standard.value_of_bits
               (List.map (N.testbit b) [3; 2; 1; 0] ++ List.map (N.testbit c) [7; 6])
          :: Standard.value_of_bits (List.map (N.testbit c) [5; 4; 3; 2; 1; 0])
          :: Standard.sextets (Standard.bit_stream rest)).
  cbn [List.map List.length].
  change (S (S (S (S ?n)))) with (4 + n)%nat.
  now rewrite padding_four.
Qed.

Lemma b64encode_standard (b : bytes) :
  Forall (fun x => x < 256) b -> b64encode b = Standard.base64 b.
Proof.
  induction b as [|a|a b|a b c rest IH] using list_ind3; intros Hoct.
  - reflexivity.
  - inversion_clear Hoct as [|? ? Ha _].
    cbn [b64encode].
    rewrite <- (sextet_1 a Ha), <- (sextet_2_last a Ha). reflexivity.
  - inversion_clear Hoct as [|? ? Ha Hoct']. inversion_clear Hoct' as [|? ? Hb _].
    cbn [b64encode].
    rewrite <- (sextet_1 a Ha), <- (sextet_2 a b Ha Hb), <- (sextet_3_last b Hb).
    reflexivity.
  - inversion_clear Hoct as [|? ? Ha Hoct']. inversion_clear Hoct' as [|? ? Hb Hoct].
    inversion_clear Hoct as [|? ? Hc Hrest].
    cbn [b64encode]. rewrite base64_group, (IH Hrest).
    now rewrite (sextet_1 a Ha), (sextet_2 a b Ha Hb), (sextet_3 b c Hb Hc),
      (sextet_4 c Hc).
Qed.

(** ** Shape of the UTF-8 octets of one scalar value *)

Lemma utf8_octets_of_shape (ch : N) :
  Standard.scalar_value ch = true -> Standard.utf8_shape ch (Standard.utf8_octets_of ch).
Proof.
  unfold Standard.scalar_value, Standard.utf8_octets_of. intros Hscalar.
  assert (Hrange : ch < 0x110000).
  { apply orb_true_iff in Hscalar as [H|H].
    - apply N.ltb_lt in H. lia.
    - apply andb_true_iff in H as [_ H]. now apply N.ltb_lt in H. }
  clear Hscalar.
  destruct (N.ltb_spec ch 128) as [H1|H1]; [now constructor|].
  destruct (N.ltb_spec ch 2048) as [H2|H2].
  { split_div ch 64. constructor; lia. }
  replace (ch / 4096) with (ch / 64 / 64)
    by (now rewrite N.Div0.div_div).
  replace (ch / 262144) with (ch / 64 / 64 / 64)
    by (now rewrite !N.Div0.div_div).
  destruct (N.ltb_spec ch 65536) as [H3|H3].
  - split_div (ch / 64) 64. split_div ch 64. constructor; lia.
  - split_div (ch / 64 / 64) 64. split_div (ch / 64) 64. split_div ch 64.
    constructor; lia.
Qed.

Lemma utf8_shape_inj (c1 c2 : N) (o1 o2 r1 r2 : bytes) :
  Standard.utf8_shape c1 o1 -> Standard.utf8_shape c2 o2 ->
  o1 ++ r1 = o2 ++ r2 -> c1 = c2 /\ r1 = r2.
Proof.
  intros [] []; cbn [app]; intros Heq; injection Heq; intros; subst;
    split; first [lia | f_equal; lia | congruence].
Qed.

Lemma utf8_shape_octets (ch : N) (o : bytes) :
  Standard.utf8_shape ch o -> o <> [] /\ Forall (fun x => x < 256) o.
Proof.
  intros []; (split; [discriminate|]); repeat constructor; lia.
Qed.

Lemma utf8_octets_ok (s : str) (b : bytes) :
  Standard.utf8_octets s = Ok b <->
  forallb Standard.scalar_value s = true /\
  b = List.concat (List.map Standard.utf8_octets_of s).
Proof.
  unfold Standard.utf8_octets.
  destruct (forallb Standard.scalar_value s); split.
  - intros [= <-]. now split.
  - intros [_ ->]. reflexivity.
  - discriminate.
  - intros [[=] _].
Qed.

Lemma utf8_octets_range (s : str) (b : bytes) :
  Standard.utf8_octets s = Ok b -> Forall (fun x => x < 256) b.
Proof.
  rewrite utf8_octets_ok. intros [Hscalar ->].
  induction s as [|ch s IH]; cbn [List.map List.concat].
  - constructor.
  - cbn [forallb] in Hscalar. apply andb_true_iff in Hscalar as [Hch Hs].
    apply Forall_app. split; [|now apply IH].
    now apply (utf8_shape_octets ch), utf8_octets_of_shape.
Qed.

Lemma utf8_octets_inj (s1 s2 : str) (b : bytes) :
  Standard.utf8_octets s1 = Ok b -> Standard.utf8_octets s2 = Ok b -> s1 = s2.
Proof.
  rewrite !utf8_octets_ok. intros [H1 ->] [H2 Heq].
  revert s2 H2 Heq.
  induction s1 as [|c1 s1 IH]; intros [|c2 s2] H2 Heq;
    cbn [List.map List.concat forallb] in *.
  - reflexivity.
  - apply andb_true_iff in H2 as [Hc2 _].
    apply utf8_octets_of_shape, utf8_shape_octets in Hc2 as [Hne _].
    destruct (Standard.utf8_octets_of c2); [congruence | discriminate].
  - apply andb_true_iff in H1 as [Hc1 _].
    apply utf8_octets_of_shape, utf8_shape_octets in Hc1 as [Hne _].
    destruct (Standard.utf8_octets_of c1); [congruence | discriminate].
  - apply andb_true_iff in H1 as [Hc1 Hs1].
    apply andb_true_iff in H2 as [Hc2 Hs2].
    destruct (utf8_shape_inj c1 c2 _ _ _ _
                (utf8_octets_of_shape c1 Hc1) (utf8_octets_of_shape c2 Hc2)
                Heq) as [-> Hrest].
    f_equal. apply IH; auto.
Qed.

(** ** Base64 loses nothing *)

Lemma b64_char_ascii (i : N) : b64_char i < 128.
Proof.
  assert (Hall : forall x, In x b64_alphabet -> (x <? 128) = true).
  { apply forallb_forall. vm_compute. reflexivity. }
  unfold b64_char.
  destruct (nth_in_or_default (N.to_nat i) b64_alphabet b64_pad) as [Hin | ->].
  - apply N.ltb_lt, Hall, Hin.
  - reflexivity.
Qed.

Lemma b64encode_ascii (b : bytes) :
  forallb (fun x => x <? 128) (b64encode b) = true.
Proof.
  induction b as [|a|a b|a b c rest IH] using list_ind3;
    cbn [b64encode forallb];
    repeat match goal with
      | |- context [b64_char ?i <? 128] =>
          rewrite (proj2 (N.ltb_lt (b64_char i) 128) (b64_char_ascii i))
      end;
    auto.
Qed.

Lemma b64_char_inj : forall i j,
  i < 64 -> j < 64 -> b64_char i = b64_char j -> i = j.
Proof.
  intros i j Hi Hj Heq. apply N.eqb_eq.
  assert (Hall : implb (b64_char i =? b64_char j) (i =? j) = true).
  { revert i j Hi Hj Heq. intros i j Hi Hj _. revert i j Hi Hj.
    apply (below_forall2 64 64
             (fun i j => implb (b64_char i =? b64_char j) (i =? j))).
    vm_compute. reflexivity. }
  apply N.eqb_eq in Heq. now rewrite Heq in Hall.
Qed.

Lemma b64_char_not_pad : forall i, i < 64 -> b64_char i <> b64_pad.
Proof.
  intros i Hi Heq. apply N.eqb_eq in Heq.
  assert (Hall : negb (b64_char i =? b64_pad) = true).
  { revert i Hi Heq. intros i Hi _. revert i Hi.
    apply (below_forall 64 (fun i => negb (b64_char i =? b64_pad))).
    vm_compute. reflexivity. }
  now rewrite Heq in Hall.
Qed.

Lemma sextet_1_arith (a : N) : N.shiftr a 2 = a / 4.
Proof. exact (N.shiftr_div_pow2 a 2). Qed.

Lemma sextet_2_arith : forall a b, a < 256 -> b < 256 ->
  N.lor (N.shiftl (N.land a 0x3) 4) (N.shiftr b 4) = 16 * (a mod 4) + b / 16.
Proof. by_enumeration2 256. Qed.

Lemma sextet_3_arith : forall b c, b < 256 -> c < 256 ->
  N.lor (N.shiftl (N.land b 0xF) 2) (N.shiftr c 6) = 4 * (b mod 16) + c / 64.
Proof. by_enumeration2 256. Qed.

Lemma sextet_2_last_arith : forall a, a < 256 ->
  N.shiftl (N.land a 0x3) 4 = 16 * (a mod 4).
Proof. by_enumeration 256. Qed.

Lemma sextet_3_last_arith : forall b, b < 256 ->
  N.shiftl (N.land b 0xF) 2 = 4 * (b mod 16).
Proof. by_enumeration 256. Qed.

Ltac div_lia :=
  repeat match goal with
    | |- context [?a / ?d] => split_div a d
    | |- context [?a mod ?d] => split_div a d
    | H : context [?a / ?d] |- _ => split_div a d
    | H : context [?a mod ?d] |- _ => split_div a d
    end;
  lia.

Ltac octet_bounds :=
  repeat match goal with
    | H : Forall _ (_ :: _) |- _ =>
        let Hx := fresh "Hoct" in
        let Hl := fresh "Hrest" in
        apply Forall_cons_iff in H as [Hx Hl]
    | H : Forall _ [] |- _ => clear H
    end.

Ltac sextet_arith H :=
  rewrite ?sextet_1_arith, ?low_six_bits in H;
  rewrite ?sextet_2_arith, ?sextet_3_arith,
    ?sextet_2_last_arith, ?sextet_3_last_arith in H by assumption.

Ltac same_char :=
  repeat match goal with
    | H : b64_char _ = b64_pad |- _ =>
        exfalso; revert H; apply b64_char_not_pad; div_lia
    | H : b64_pad = b64_char _ |- _ =>
        exfalso; symmetry in H; revert H; apply b64_char_not_pad; div_lia
    | H : b64_char _ = b64_char _ |- _ =>
        apply b64_char_inj in H; [ | div_lia | div_lia ]
    end.

Lemma b64encode_inj (b1 b2 : bytes) :
  Forall (fun x => x < 256) b1 -> Forall (fun x => x < 256) b2 ->
  b64encode b1 = b64encode b2 -> b1 = b2.
Proof.
  revert b2.
  induction b1 as [|a|a b|a b c rest IH] using list_ind3;
    intros [|a' [|b' [|c' rest']]] H1 H2 Heq;
    cbn [b64encode] in Heq; try discriminate; try reflexivity;
    octet_bounds; sextet_arith Heq; injection Heq; clear Heq; intros;
    same_char.
  - f_equal. div_lia.
  - replace a' with a by div_lia. replace b' with b by div_lia. reflexivity.
  - replace a' with a by div_lia. replace b' with b by div_lia.
    replace c' with c by div_lia. do 3 f_equal. now apply IH.
Qed.

(** ** Dicom settings: constant and endpoint *)

(** C7: whatever the fields hold, [carrier_name] evaluates to the
    literal ["dicom"]; it does not raise and hands the object back as it
    received it. *)
Theorem carrier_name_constant (self : Dicom.Settings) :
  Dicom.carrier_name self = (Ok (lit "dicom"), self).
Proof. reflexivity. Qed.

(** C5: [server_url] is the sandbox literal when [test] holds and the
    production literal otherwise, and two objects with the same [test]
    flag have the same [server_url], whatever their other fields. *)
Theorem server_url_by_test_flag :
  (forall self : Dicom.Settings,
      Dicom.server_url self =
        (Ok (lit (if Dicom.test self
                  then "https://ct.soa-gw.canadapost.ca"
                  else "https://soa-gw.canadapost.ca")), self)) /\
  (forall self other : Dicom.Settings,
      Dicom.test self = Dicom.test other ->
      fst (Dicom.server_url self) = fst (Dicom.server_url other)).
Proof.
  split.
  - intros self. unfold Dicom.server_url. now destruct (Dicom.test self).
  - intros self other Heq. unfold Dicom.server_url. cbn. now rewrite Heq.
Qed.

Lemma server_url_by_test_flag_witness :
  fst (Dicom.server_url
         (Dicom.mkSettings (lit "alice") (lit "secret") None None true)) =
  fst (Dicom.server_url
         (Dicom.mkSettings (lit "bob") (lit "hunter2") (Some (lit "42")) None true)).
Proof.
  apply (proj2 server_url_by_test_flag). reflexivity.
Defined.

(** C8: reading [carrier_name], [server_url] or [authorization] leaves
    the object, and so each of [username], [password], [billing_account],
    [id] and [test], as it was. *)
Theorem derived_fields_do_not_mutate (self : Dicom.Settings) :
  snd (Dicom.carrier_name self) = self /\
  snd (Dicom.server_url self) = self /\
  snd (Dicom.authorization self) = self.
Proof. repeat split. Qed.

(** ** Dicom settings: the credential token *)

Lemma base64_text (octets : bytes) :
  Forall (fun x => x < 256) octets ->
  decode_ascii (b64encode octets) = Ok (Standard.base64 octets) /\
  Standard.ascii_text (Standard.base64 octets) = Ok (Standard.base64 octets).
Proof.
  intros Hoct. rewrite decode_ascii_standard, <- (b64encode_standard _ Hoct).
  unfold Standard.ascii_text. now rewrite b64encode_ascii.
Qed.

Lemma authorization_standard (self : Dicom.Settings) :
  Dicom.authorization self =
    (Standard.basic_credentials (Dicom.username self) (Dicom.password self), self).
Proof.
  unfold Dicom.authorization, Standard.basic_credentials, format_pair.
  cbv zeta. rewrite encode_utf8_standard. f_equal.
  destruct (Standard.utf8_octets _) as [octets|e] eqn:Hutf8; cbn [bind].
  - apply utf8_octets_range in Hutf8.
    destruct (base64_text octets Hutf8) as [-> ->]. reflexivity.
  - reflexivity.
Qed.

Lemma basic_credentials_ok (user pass : str) (octets : bytes) :
  Standard.utf8_octets (format_pair user pass) = Ok octets ->
  Standard.basic_credentials user pass = Ok (Standard.base64 octets).
Proof.
  intros Hutf8. unfold Standard.basic_credentials.
  change (user ++ lit ":" ++ pass) with (format_pair user pass).
  rewrite Hutf8. cbn [bind].
  now apply base64_text, (utf8_octets_range (format_pair user pass)).
Qed.

Lemma basic_credentials_inj (user pass user' pass' : str) :
  forallb Standard.scalar_value (format_pair user' pass') = true ->
  Standard.basic_credentials user' pass' = Standard.basic_credentials user pass ->
  format_pair user' pass' = format_pair user pass.
Proof.
  intros Hscalar Heq.
  destruct (Standard.utf8_octets (format_pair user' pass')) as [o'|e] eqn:Hnew.
  2: { apply (f_equal (fun r => match r with Ok _ => true | Raise _ => false end))
         in Hnew.
       unfold Standard.utf8_octets in Hnew. now rewrite Hscalar in Hnew. }
  rewrite (basic_credentials_ok _ _ _ Hnew) in Heq.
  destruct (Standard.utf8_octets (format_pair user pass)) as [o|e] eqn:Hold.
  - rewrite (basic_credentials_ok _ _ _ Hold) in Heq. injection Heq as Heq.
    pose proof (utf8_octets_range _ _ Hnew) as Hr'.
    pose proof (utf8_octets_range _ _ Hold) as Hr.
    rewrite <- !b64encode_standard in Heq by assumption.
    apply b64encode_inj in Heq; [|assumption..]. subst o'.
    now apply (utf8_octets_inj _ _ o).
  - unfold Standard.basic_credentials in Heq.
    change (user ++ lit ":" ++ pass) with (format_pair user pass) in Heq.
    rewrite Hold in Heq. discriminate.
Qed.

Lemma format_pair_user_inj (user user' pass : str) :
  format_pair user' pass = format_pair user pass -> user' = user.
Proof. unfold format_pair. apply app_inv_tail. Qed.

Lemma format_pair_pass_inj (user pass pass' : str) :
  format_pair user pass' = format_pair user pass -> pass' = pass.
Proof.
  unfold format_pair. intros Heq. apply app_inv_head in Heq.
  now injection Heq.
Qed.

(** C4: [authorization] is the standard Base64 text of the UTF-8 octets
    of ["<username>:<password>"] (and fails as the encoding does when the
    text has none); whenever the text has UTF-8 octets the token is their
    Base64 text, read as ASCII without error; for [alice] and [secret] the
    token is [YWxpY2U6c2VjcmV0]. *)
Theorem authorization_basic_credentials :
  (forall self : Dicom.Settings,
     Dicom.authorization self =
       (Standard.basic_credentials (Dicom.username self) (Dicom.password self),
        self)) /\
  (forall (self : Dicom.Settings) (octets : bytes),
     Standard.utf8_octets
       (Dicom.username self ++ lit ":" ++ Dicom.password self) = Ok octets ->
     fst (Dicom.authorization self) = Ok (Standard.base64 octets)) /\
  (forall billing id test,
     fst (Dicom.authorization
            (Dicom.mkSettings (lit "alice") (lit "secret") billing id test)) =
       Ok (lit "YWxpY2U6c2VjcmV0")).
Proof.
  split; [exact authorization_standard|]. split.
  - intros self octets Hutf8. rewrite authorization_standard. cbn [fst].
    now apply basic_credentials_ok.
  - intros billing id test. vm_compute. reflexivity.
Qed.

Lemma authorization_basic_credentials_witness :
  fst (Dicom.authorization Sample.settings) =
    Ok (Standard.base64 (lit "alice:secret")).
Proof.
  apply (proj1 (proj2 authorization_basic_credentials) Sample.settings).
  vm_compute. reflexivity.
Defined.

Lemma basic_credentials_text (user pass user' pass' : str) :
  format_pair user' pass' = format_pair user pass ->
  Standard.basic_credentials user' pass' = Standard.basic_credentials user pass.
Proof.
  unfold Standard.basic_credentials.
  change (user ++ lit ":" ++ pass) with (format_pair user pass).
  change (user' ++ lit ":" ++ pass') with (format_pair user' pass').
  now intros ->.
Qed.

Lemma basic_credentials_unencodable (user pass : str) :
  forallb Standard.scalar_value (format_pair user pass) = false ->
  Standard.basic_credentials user pass = Raise UnicodeEncodeError.
Proof.
  intros Hscalar. unfold Standard.basic_credentials, Standard.utf8_octets.
  change (user ++ lit ":" ++ pass) with (format_pair user pass).
  now rewrite Hscalar.
Qed.

(** The outcome for one pair differs from that for another exactly when
    the joined texts differ and at least one of them has UTF-8 octets. *)
Lemma basic_credentials_differ (user pass user' pass' : str) :
  Standard.basic_credentials user' pass' <> Standard.basic_credentials user pass
  <->
  format_pair user' pass' <> format_pair user pass /\
  forallb Standard.scalar_value (format_pair user' pass')
  || forallb Standard.scalar_value (format_pair user pass) = true.
Proof.
  split.
  - intros Hdiff. split.
    + intros Htext. apply Hdiff. now apply basic_credentials_text.
    + destruct (forallb Standard.scalar_value (format_pair user' pass'))
        eqn:Hnew; [reflexivity|].
      destruct (forallb Standard.scalar_value (format_pair user pass))
        eqn:Hold; [reflexivity|].
      exfalso. apply Hdiff.
      now rewrite !basic_credentials_unencodable.
  - intros [Htext Henc] Heq. apply Htext.
    apply orb_true_iff in Henc as [Hnew|Hold].
    + now apply basic_credentials_inj.
    + symmetry. now apply basic_credentials_inj.
Qed.

(** C6, as amended: [authorization] reads the fields at each access and
    keeps nothing from one access to the next.  After [username],
    [password] or both are assigned, the next access gives the outcome
    for the new pair.  That outcome differs from the one before exactly
    when the joined text ["<username>:<password>"] has changed and the
    old or the new text has UTF-8 octets; so it differs whenever one
    field alone is changed and the old or the new text has UTF-8
    octets. *)
Theorem authorization_tracks_fields (self : Dicom.Settings) (u p : str) :
  let text := format_pair (Dicom.username self) (Dicom.password self) in
  let after_both :=
    snd (Dicom.and_then (Dicom.set_username u) (Dicom.set_password p) self) in
  let after_username := snd (Dicom.set_username u self) in
  let after_password := snd (Dicom.set_password p self) in
  (fst (Dicom.authorization after_both) = Standard.basic_credentials u p /\
   (fst (Dicom.authorization after_both) <> fst (Dicom.authorization self) <->
    format_pair u p <> text /\
    forallb Standard.scalar_value (format_pair u p)
    || forallb Standard.scalar_value text = true)) /\
  (fst (Dicom.authorization after_username) =
     Standard.basic_credentials u (Dicom.password self) /\
   (u <> Dicom.username self ->
    forallb Standard.scalar_value (format_pair u (Dicom.password self))
    || forallb Standard.scalar_value text = true ->
    fst (Dicom.authorization after_username) <>
      fst (Dicom.authorization self))) /\
  (fst (Dicom.authorization after_password) =
     Standard.basic_credentials (Dicom.username self) p /\
   (p <> Dicom.password self ->
    forallb Standard.scalar_value (format_pair (Dicom.username self) p)
    || forallb Standard.scalar_value text = true ->
    fst (Dicom.authorization after_password) <>
      fst (Dicom.authorization self))).
Proof.
  cbv zeta. rewrite !authorization_standard.
  cbn [fst snd Dicom.set_username Dicom.set_password Dicom.and_then
       Dicom.username Dicom.password].
  split; [split; [reflexivity | apply basic_credentials_differ]|].
  split; (split; [reflexivity|]); intros Hne Henc;
    apply basic_credentials_differ; (split; [|exact Henc]); intros Htext;
    apply Hne.
  - now apply format_pair_user_inj in Htext.
  - now apply format_pair_pass_inj in Htext.
Qed.

Lemma authorization_tracks_fields_witness :
  fst (Dicom.authorization
         (snd (Dicom.and_then (Dicom.set_username (lit "bob"))
                 (Dicom.set_password (lit "hunter2")) Sample.settings))) <>
    fst (Dicom.authorization Sample.settings) /\
  fst (Dicom.authorization (snd (Dicom.set_username (lit "bob") Sample.settings))) <>
    fst (Dicom.authorization Sample.settings) /\
  fst (Dicom.authorization (snd (Dicom.set_password (lit "hunter2") Sample.settings))) <>
    fst (Dicom.authorization Sample.settings).
Proof.
  destruct (authorization_tracks_fields Sample.settings (lit "bob") (lit "hunter2"))
    as ((_ & Hboth) & (_ & Huser) & (_ & Hpass)).
  split; [|split].
  - apply Hboth. split; [discriminate | vm_compute; reflexivity].
  - apply Huser; [discriminate | vm_compute; reflexivity].
  - apply Hpass; [discriminate | vm_compute; reflexivity].
Defined.

(** C6, as stated, fails, in two ways.  With [username = "a:b"] and
    [password = "c"], assigning [username = "a"] and [password = "b:c"]
    changes both fields and leaves the joined text, and so the token, as
    it was.  With a lone surrogate for [username], assigning another lone
    surrogate changes the field and the joined text, and both accesses
    raise the same [UnicodeEncodeError]: no value is returned, before or
    after. *)
Lemma authorization_change_unseen :
  ~ (forall (self : Dicom.Settings) (u p : str),
       u <> Dicom.username self \/ p <> Dicom.password self ->
       let changed :=
         snd (Dicom.and_then (Dicom.set_username u) (Dicom.set_password p) self) in
       fst (Dicom.authorization changed) <> fst (Dicom.authorization self) /\
       fst (Dicom.authorization changed) = Standard.basic_credentials u p) /\
  (let self := Dicom.mkSettings (lit "a:b") (lit "c") None None false in
   let changed :=
     snd (Dicom.and_then (Dicom.set_username (lit "a"))
            (Dicom.set_password (lit "b:c")) self) in
   Dicom.username changed <> Dicom.username self /\
   Dicom.password changed <> Dicom.password self /\
   fst (Dicom.authorization changed) = Ok (lit "YTpiOmM=") /\
   fst (Dicom.authorization self) = Ok (lit "YTpiOmM=")) /\
  (let self := Dicom.mkSettings [0xD800] (lit "c") None None false in
   let changed := snd (Dicom.set_username [0xD801] self) in
   Dicom.username changed <> Dicom.username self /\
   format_pair (Dicom.username changed) (Dicom.password changed) <>
     format_pair (Dicom.username self) (Dicom.password self) /\
   fst (Dicom.authorization changed) = Raise UnicodeEncodeError /\
   fst (Dicom.authorization self) = Raise UnicodeEncodeError).
Proof.
  split; [|split].
  - intros Hclaim.
    destruct (Hclaim (Dicom.mkSettings (lit "a:b") (lit "c") None None false)
                (lit "a") (lit "b:c")) as [Hchanged _].
    + left. discriminate.
    + apply Hchanged. vm_compute. reflexivity.
  - cbv zeta. repeat split; try discriminate; vm_compute; reflexivity.
  - cbv zeta. repeat split; try discriminate; vm_compute; reflexivity.
Qed.

(** ** Fedex package descriptor *)

Lemma fnmatch_star_only (name : list ascii) :
  Fedex.fnmatch ["*"%char] name = true.
Proof.
  induction name as [|c name IH].
  - reflexivity.
  - cbn in *. exact IH.
Qed.

Lemma fnmatch_literal_head (p c : ascii) (pat name : list ascii) :
  p <> "*"%char -> p <> "?"%char ->
  Fedex.fnmatch (p :: pat) (c :: name) =
    Ascii.eqb p c && Fedex.fnmatch pat name.
Proof.
  intros Hstar Hq. cbn.
  apply Ascii.eqb_neq in Hstar. apply Ascii.eqb_neq in Hq.
  now rewrite Hstar, Hq.
Qed.

Lemma fnmatch_tests_prefix (name : string) :
  Fedex.fnmatch (list_ascii_of_string "tests*") (list_ascii_of_string name) =
    String.prefix "tests" name.
Proof.
  cbn [list_ascii_of_string].
  do 5 (destruct name as [|c name];
        [ reflexivity
        | cbn [list_ascii_of_string String.prefix];
          rewrite fnmatch_literal_head by discriminate;
          match goal with
          | |- context [ascii_dec ?a c] =>
              destruct (ascii_dec a c) as [<-|Hne];
              [ rewrite Ascii.eqb_refl; cbn [andb]
              | apply Ascii.eqb_neq in Hne; rewrite Hne; reflexivity ]
          end ]).
  rewrite fnmatch_star_only. now destruct name.
Qed.

(** C10: the descriptor declares the name ["purplship.fedex"], the
    version ["2020.5.0"], the license ["LGPLv3"], the two requirements
    [purplship] and [py-fedex], and as packages every directory found
    except those whose dotted name begins with [tests]. *)
Theorem setup_declares_literals (found : list string) :
  Fedex.name (Fedex.setup found) = "purplship.fedex"%string /\
  Fedex.version (Fedex.setup found) = "2020.5.0"%string /\
  Fedex.license (Fedex.setup found) = "LGPLv3"%string /\
  Fedex.install_requires (Fedex.setup found) =
    ["purplship"; "py-fedex"]%string /\
  Fedex.packages (Fedex.setup found) =
    List.filter (fun pkg => negb (String.prefix "tests" pkg)) found.
Proof.
  repeat split. cbn.
  unfold Fedex.find_namespace_packages.
  apply List.filter_ext. intros pkg.
  unfold Fedex.matches_any. cbn [existsb].
  now rewrite fnmatch_tests_prefix, orb_false_r.
Qed.

(** ** Order queries *)

Section OrderQueries.

Context {Order RequestContext Identity Value Root : Type}.
Context (user : RequestContext -> option Identity).
Context (visible : RequestContext -> list Order).
Context (reading : string -> Value -> result (Order -> bool)).

#[local] Abbreviation resolver :=
  (Orders.resolver (RequestContext := RequestContext)
     (Value := Value) (Root := Root)).
#[local] Abbreviation login_required :=
  (Orders.login_required (Value := Value) (Root := Root) user).
#[local] Abbreviation resolve_order :=
  (Orders.resolve_order (Root := Root) user visible reading).
#[local] Abbreviation resolve_orders :=
  (Orders.resolve_orders (Value := Value) (Root := Root) user visible).
#[local] Abbreviation resolve_order_body :=
  (Orders.resolve_order_body (Root := Root) visible reading).
#[local] Abbreviation resolve_orders_body :=
  (Orders.resolve_orders_body (Value := Value) (Root := Root) visible).
#[local] Abbreviation satisfies := (Orders.satisfies reading).
#[local] Abbreviation accepts := (Orders.accepts reading).
#[local] Abbreviation qs_filter := (Orders.qs_filter reading).

Lemma login_required_anonymous {A} (func : resolver A)
    (self : Root) (info : Orders.ResolveInfo RequestContext)
    (kwargs : gmap string Value) (t : list RequestContext) :
  user (Orders.context info) = None ->
  login_required func self info kwargs t = (Raise Unauthorized, t).
Proof. intros Hanon. unfold Orders.login_required. now rewrite Hanon. Qed.

Lemma login_required_authenticated {A} (func : resolver A)
    (self : Root) (info : Orders.ResolveInfo RequestContext)
    (kwargs : gmap string Value) (t : list RequestContext) (who : Identity) :
  user (Orders.context info) = Some who ->
  login_required func self info kwargs t = func self info kwargs t.
Proof. intros Hauth. unfold Orders.login_required. now rewrite Hauth. Qed.

Lemma holds_reading (field : string) (v : Value) (row : Order) :
  Orders.holds reading field v row = true <->
  exists test, reading field v = Ok test /\ test row = true.
Proof.
  unfold Orders.holds. destruct (reading field v) as [test|e]; split.
  - eauto.
  - now intros (test' & [= <-] & Htest).
  - discriminate.
  - now intros (test' & [=] & _).
Qed.

Lemma satisfies_all_keywords (kwargs : gmap string Value) (row : Order) :
  satisfies kwargs row = true <->
  forall field v, kwargs !! field = Some v ->
    exists test, reading field v = Ok test /\ test row = true.
Proof.
  unfold Orders.satisfies. rewrite bool_decide_eq_true. unfold map_Forall.
  split; intros Hall field v Hfield; apply holds_reading; now apply Hall.
Qed.

Lemma least_key_empty (l : list (string * exn)) :
  Orders.least_key l = None -> l = [].
Proof.
  destruct l as [|x l]; [reflexivity|]. cbn.
  destruct (Orders.least_key l) as [y|]; [|discriminate].
  now destruct (String.leb (fst x) (fst y)).
Qed.

Lemma least_key_member (l : list (string * exn)) (x : string * exn) :
  Orders.least_key l = Some x -> In x l.
Proof.
  revert x. induction l as [|y l IH]; intros x; cbn.
  - discriminate.
  - destruct (Orders.least_key l) as [z|].
    + destruct (String.leb (fst y) (fst z)); intros [= <-]; auto.
    + intros [= <-]. now left.
Qed.

Lemma first_refusal_none (kwargs : gmap string Value) :
  Orders.first_refusal reading kwargs = None <-> accepts kwargs.
Proof.
  unfold Orders.first_refusal, Orders.accepts. split.
  - intros Hnone field v Hfield. apply least_key_empty in Hnone.
    destruct (reading field v) as [test|e] eqn:Hread; [eauto|].
    assert (Hin : (field, e) ∈ omap (Orders.refusal reading) (map_to_list kwargs)).
    { apply list_elem_of_omap. exists (field, v). split.
      - now apply elem_of_map_to_list.
      - unfold Orders.refusal. cbn. now rewrite Hread. }
    rewrite Hnone in Hin. now apply elem_of_nil in Hin.
  - intros Hall.
    destruct (Orders.least_key _) as [[field e]|] eqn:Hleast; [|reflexivity].
    apply least_key_member, list_elem_of_In, list_elem_of_omap in Hleast
      as ([field' v] & Hin & Hrefused).
    apply elem_of_map_to_list in Hin. destruct (Hall field' v Hin) as [test Htest].
    unfold Orders.refusal in Hrefused. cbn in Hrefused.
    now rewrite Htest in Hrefused.
Qed.

Lemma first_refusal_some (kwargs : gmap string Value) (field : string) (e : exn) :
  Orders.first_refusal reading kwargs = Some (field, e) ->
  exists v, kwargs !! field = Some v /\ reading field v = Raise e.
Proof.
  unfold Orders.first_refusal. intros Hleast.
  apply least_key_member, list_elem_of_In, list_elem_of_omap in Hleast
    as ([field' v] & Hin & Hrefused).
  apply elem_of_map_to_list in Hin.
  unfold Orders.refusal in Hrefused. cbn in Hrefused.
  destruct (reading field' v) as [test|e'] eqn:Hread; [discriminate|].
  injection Hrefused as -> ->. eauto.
Qed.

Lemma qs_filter_accepted (kwargs : gmap string Value) (qs : list Order) :
  accepts kwargs -> qs_filter kwargs qs = Ok (List.filter (satisfies kwargs) qs).
Proof.
  intros Hacc. apply first_refusal_none in Hacc.
  unfold Orders.qs_filter. now rewrite Hacc.
Qed.

Lemma qs_filter_refused (kwargs : gmap string Value) (qs : list Order) :
  ~ accepts kwargs ->
  exists field v e,
    kwargs !! field = Some v /\ reading field v = Raise e /\
    qs_filter kwargs qs = Raise e.
Proof.
  intros Hnot. unfold Orders.qs_filter.
  destruct (Orders.first_refusal reading kwargs) as [[field e]|] eqn:Hfirst.
  - destruct (first_refusal_some _ _ _ Hfirst) as (v & Hfield & Hread).
    exists field, v, e. auto.
  - now apply first_refusal_none in Hfirst.
Qed.

Lemma qs_filter_ok (kwargs : gmap string Value) (qs found : list Order) :
  qs_filter kwargs qs = Ok found ->
  accepts kwargs /\ found = List.filter (satisfies kwargs) qs.
Proof.
  unfold Orders.qs_filter.
  destruct (Orders.first_refusal reading kwargs) as [[field e]|] eqn:Hfirst;
    [discriminate|].
  intros [= <-]. split; [now apply first_refusal_none | reflexivity].
Qed.

(** The two resolvers, run: one equation each. *)
Lemma resolve_order_run
    (self : Root) (info : Orders.ResolveInfo RequestContext)
    (kwargs : gmap string Value) (t : list RequestContext) :
  resolve_order self info kwargs t =
    match user (Orders.context info) with
    | Some _ =>
        (bind (qs_filter kwargs (visible (Orders.context info)))
              (fun found => Ok (Orders.first found)),
         t ++ [Orders.context info])
    | None => (Raise Unauthorized, t)
    end.
Proof.
  unfold Orders.resolve_order, Orders.login_required.
  destruct (user (Orders.context info)); [|reflexivity].
  unfold Orders.resolve_order_body, Orders.mbind, Orders.access_by,
    Orders.lift, Orders.ret.
  now destruct (Orders.qs_filter reading kwargs _).
Qed.

Lemma resolve_orders_run
    (self : Root) (info : Orders.ResolveInfo RequestContext)
    (kwargs : gmap string Value) (t : list RequestContext) :
  resolve_orders self info kwargs t =
    match user (Orders.context info) with
    | Some _ => (Ok (visible (Orders.context info)), t ++ [Orders.context info])
    | None => (Raise Unauthorized, t)
    end.
Proof.
  unfold Orders.resolve_orders, Orders.login_required.
  now destruct (user (Orders.context info)).
Qed.

Lemma first_filter_none (keep : Order -> bool) (qs : list Order) :
  (forall row, In row qs -> keep row = false) ->
  Orders.first (List.filter keep qs) = None.
Proof.
  induction qs as [|row qs IH]; intros Hnone.
  - reflexivity.
  - cbn. rewrite (Hnone row) by now left.
    apply IH. intros row' Hin. apply Hnone. now right.
Qed.

Lemma first_filter_some (keep : Order -> bool) (qs : list Order) (row : Order) :
  Orders.first (List.filter keep qs) = Some row ->
  In row qs /\ keep row = true.
Proof.
  induction qs as [|x qs IH]; cbn.
  - discriminate.
  - destruct (keep x) eqn:Hx.
    + cbn. intros [= ->]. split; [now left | exact Hx].
    + intros Hfirst. destruct (IH Hfirst) as [Hin Hkeep].
      split; [now right | exact Hkeep].
Qed.


(** C1: without an authenticated identity in the calling context, [order]
    and [orders] fail with [Unauthorized] and the data layer records no
    call; with one, each runs its wrapped body on the same root, the same
    [info] (hence the same context) and the same keyword arguments. *)
Theorem login_gate
    (self : Root) (info : Orders.ResolveInfo RequestContext)
    (kwargs : gmap string Value) (t : list RequestContext) :
  (user (Orders.context info) = None ->
     resolve_order self info kwargs t = (Raise Unauthorized, t) /\
     resolve_orders self info kwargs t = (Raise Unauthorized, t)) /\
  (forall who : Identity,
     user (Orders.context info) = Some who ->
     resolve_order self info kwargs t = resolve_order_body self info kwargs t /\
     resolve_orders self info kwargs t = resolve_orders_body self info kwargs t).
Proof.
  split.
  - intros Hanon. split; now apply login_required_anonymous.
  - intros who Hauth. split; now apply login_required_authenticated with who.
Qed.


(** C3: for an authenticated context, [orders] evaluates to exactly the
    rows visible to that context; when none is visible the value is the
    empty sequence, neither [None] nor an error. *)
Theorem resolve_orders_visible
    (self : Root) (info : Orders.ResolveInfo RequestContext)
    (kwargs : gmap string Value) (t : list RequestContext) (who : Identity) :
  user (Orders.context info) = Some who ->
  fst (resolve_orders self info kwargs t) = Ok (visible (Orders.context info)) /\
  (visible (Orders.context info) = [] ->
     fst (resolve_orders self info kwargs t) = Ok []).
Proof.
  intros Hauth.
  assert (Hrun : fst (resolve_orders self info kwargs t) =
                 Ok (visible (Orders.context info))).
  { unfold Orders.resolve_orders.
    now rewrite (login_required_authenticated _ _ _ _ _ who Hauth). }
  split; [exact Hrun|]. intros Hempty. now rewrite Hrun, Hempty.
Qed.

(** C9: [orders] does not look at its keyword arguments: two calls with
    the same context and any two sets of keyword arguments have the same
    outcome, which for an authenticated context is that of
    [Order.access_by(context)]. *)
Theorem resolve_orders_ignores_kwargs
    (self : Root) (info : Orders.ResolveInfo RequestContext)
    (kwargs kwargs' : gmap string Value) (t : list RequestContext) :
  resolve_orders self info kwargs t = resolve_orders self info kwargs' t /\
  (forall who : Identity,
     user (Orders.context info) = Some who ->
     resolve_orders self info kwargs t =
       Orders.access_by visible (Orders.context info) t).
Proof.
  split.
  - unfold Orders.resolve_orders, Orders.login_required.
    now destruct (user (Orders.context info)).
  - intros who Hauth. unfold Orders.resolve_orders.
    now rewrite (login_required_authenticated _ _ _ _ _ who Hauth).
Qed.

End OrderQueries.

Lemma sample_accepts_id (n : nat) : Orders.accepts Sample.reading (Sample.by_id n).
Proof.
  intros field v Hfield. unfold Sample.by_id in Hfield.
  apply lookup_singleton_Some in Hfield as [<- <-].
  eexists. reflexivity.
Qed.

Lemma login_gate_witness :
  (Sample.resolve_order tt Sample.anonymous (Sample.by_id 5) [] =
     (Raise Unauthorized, []) /\
   Sample.resolve_orders tt Sample.anonymous (Sample.by_id 5) [] =
     (Raise Unauthorized, [])) /\
  (Sample.resolve_order tt Sample.alice (Sample.by_id 5) [] =
     (Ok (Some 5%nat), [Orders.context Sample.alice]) /\
   Sample.resolve_orders tt Sample.alice (Sample.by_id 5) [] =
     (Ok [3; 5; 8]%nat, [Orders.context Sample.alice])).
Proof.
  split.
  - apply (proj1 (login_gate Sample.logged_in Sample.visible Sample.reading
                    tt Sample.anonymous (Sample.by_id 5) [])).
    reflexivity.
  - apply (proj2 (login_gate Sample.logged_in Sample.visible Sample.reading
                    tt Sample.alice (Sample.by_id 5) []) "alice"%string).
    reflexivity.
Defined.



Lemma resolve_orders_visible_witness :
  fst (Sample.resolve_orders tt Sample.alice (Sample.by_id 5) []) =
    Ok [3; 5; 8]%nat.
Proof.
  apply (resolve_orders_visible Sample.logged_in Sample.visible
           tt Sample.alice (Sample.by_id 5) [] "alice"%string).
  reflexivity.
Defined.

Lemma resolve_orders_ignores_kwargs_witness :
  Sample.resolve_orders tt Sample.alice (Sample.by_id 5) [] =
    Orders.access_by Sample.visible (Orders.context Sample.alice) [].
Proof.
  apply (proj2 (resolve_orders_ignores_kwargs Sample.logged_in Sample.visible
                  tt Sample.alice (Sample.by_id 5) ∅ []) "alice"%string).
  reflexivity.
Defined.

(** * Further properties *)

(** ** The credential token: when it exists and what it looks like *)

Lemma b64_char_in_alphabet (i : N) : i < 64 -> In (b64_char i) b64_alphabet.
Proof.
  intros Hi. unfold b64_char. apply nth_In.
  change (List.length b64_alphabet) with 64%nat. lia.
Qed.

Lemma b64encode_length (b : bytes) :
  List.length (b64encode b) = (4 * ((List.length b + 2) / 3))%nat.
Proof.
  induction b as [|a|a b|a b c rest IH] using list_ind3;
    try reflexivity.
  cbn [b64encode List.length]. rewrite IH.
  replace (S (S (S (List.length rest))) + 2)%nat
    with (1 * 3 + (List.length rest + 2))%nat by lia.
  rewrite Nat.div_add_l by discriminate. lia.
Qed.

Lemma b64encode_body (b : bytes) :
  Forall (fun x => x < 256) b ->
  exists body,
    b64encode b =
      body ++ repeat b64_pad ((3 - List.length b mod 3) mod 3)%nat /\
    Forall (fun c => In c b64_alphabet) body.
Proof.
  induction b as [|a|a b|a b c rest IH] using list_ind3; intros Hoct;
    octet_bounds.
  - exists []. split; [reflexivity | constructor].
  - exists [b64_char (N.shiftr a 2); b64_char (N.shiftl (N.land a 0x3) 4)].
    split; [reflexivity|].
    rewrite sextet_1_arith, sextet_2_last_arith by assumption.
    repeat (constructor; [apply b64_char_in_alphabet; div_lia|]).
    constructor.
  - exists [b64_char (N.shiftr a 2);
            b64_char (N.lor (N.shiftl (N.land a 0x3) 4) (N.shiftr b 4));
            b64_char (N.shiftl (N.land b 0xF) 2)].
    split; [reflexivity|].
    rewrite sextet_1_arith, sextet_2_arith, sextet_3_last_arith by assumption.
    repeat (constructor; [apply b64_char_in_alphabet; div_lia|]).
    constructor.
  - destruct (IH Hrest) as (body & Hbody & Halpha).
    exists (b64_char (N.shiftr a 2)
            :: b64_char (N.lor (N.shiftl (N.land a 0x3) 4) (N.shiftr b 4))
            :: b64_char (N.lor (N.shiftl (N.land b 0xF) 2) (N.shiftr c 6))
            :: b64_char (N.land c 0x3F) :: body).
    split.
    + cbn [b64encode List.length]. rewrite Hbody.
      replace (S (S (S (List.length rest))) mod 3)%nat
        with (List.length rest mod 3)%nat; [reflexivity|].
      replace (S (S (S (List.length rest))))
        with (List.length rest + 1 * 3)%nat by lia.
      symmetry. apply Nat.Div0.mod_add.
    + rewrite sextet_1_arith, sextet_2_arith, sextet_3_arith, low_six_bits
        by assumption.
      repeat (constructor; [apply b64_char_in_alphabet; div_lia|]).
      exact Halpha.
Qed.

Lemma decode_ascii_b64encode (b : bytes) :
  decode_ascii (b64encode b) = Ok (b64encode b).
Proof.
  rewrite decode_ascii_standard. unfold Standard.ascii_text.
  now rewrite b64encode_ascii.
Qed.

Lemma scalar_pair (user pass : str) :
  forallb Standard.scalar_value (format_pair user pass) =
    forallb Standard.scalar_value user && forallb Standard.scalar_value pass.
Proof. unfold format_pair. now rewrite forallb_app. Qed.

(** What a run of [authorization] amounts to, in one equation. *)
Lemma authorization_run (self : Dicom.Settings) :
  fst (Dicom.authorization self) =
    if forallb Standard.scalar_value (Dicom.username self)
       && forallb Standard.scalar_value (Dicom.password self)
    then Ok (b64encode
               (List.concat
                  (List.map Standard.utf8_octets_of
                     (format_pair (Dicom.username self) (Dicom.password self)))))
    else Raise UnicodeEncodeError.
Proof.
  unfold Dicom.authorization. cbn [fst].
  rewrite encode_utf8_standard. unfold Standard.utf8_octets.
  rewrite scalar_pair.
  destruct (forallb Standard.scalar_value (Dicom.username self)
            && forallb Standard.scalar_value (Dicom.password self));
    cbn [bind]; [apply decode_ascii_b64encode | reflexivity].
Qed.

Lemma utf8_octets_count (s : str) :
  forallb Standard.scalar_value s = true ->
  (List.length s
   <= List.length (List.concat (List.map Standard.utf8_octets_of s))
   <= 4 * List.length s)%nat.
Proof.
  induction s as [|ch s IH]; cbn [forallb List.map List.concat List.length].
  - lia.
  - intros Hs. apply andb_true_iff in Hs as [Hch Hs].
    rewrite length_app.
    pose proof (utf8_octets_of_shape ch Hch) as Hshape.
    specialize (IH Hs).
    destruct Hshape; cbn [List.length]; lia.
Qed.

Lemma utf8_octets_of_ascii (s : str) :
  Forall (fun ch => ch < 128) s ->
  forallb Standard.scalar_value s = true /\
  List.concat (List.map Standard.utf8_octets_of s) = s.
Proof.
  induction 1 as [|ch s Hch _ [IHs IHo]];
    cbn [forallb List.map List.concat].
  - now split.
  - unfold Standard.scalar_value at 1, Standard.utf8_octets_of at 1.
    replace (ch <? 0xD800) with true by (symmetry; apply N.ltb_lt; lia).
    replace (ch <? 128) with true by (symmetry; now apply N.ltb_lt).
    cbn [orb andb app]. split; [exact IHs | now rewrite IHo].
Qed.

Lemma authorization_ok_octets (self : Dicom.Settings) (token : str) :
  fst (Dicom.authorization self) = Ok token ->
  let text := format_pair (Dicom.username self) (Dicom.password self) in
  let octets := List.concat (List.map Standard.utf8_octets_of text) in
  forallb Standard.scalar_value text = true /\
  token = b64encode octets /\
  Forall (fun x => x < 256) octets.
Proof.
  rewrite authorization_run, <- scalar_pair. intros Hrun text octets.
  destruct (forallb Standard.scalar_value
              (format_pair (Dicom.username self) (Dicom.password self)))
    eqn:Hscalar; [|discriminate].
  injection Hrun as <-.
  split; [exact Hscalar|]. split; [reflexivity|].
  apply (utf8_octets_range text). unfold Standard.utf8_octets.
  fold text in Hscalar. now rewrite Hscalar.
Qed.

Lemma format_pair_length (user pass : str) :
  List.length (format_pair user pass) =
    (List.length user + List.length pass + 1)%nat.
Proof. unfold format_pair. rewrite length_app. cbn. lia. Qed.

Lemma format_pair_split (user pass user' pass' : str) :
  ~ In 58 user -> ~ In 58 user' ->
  format_pair user pass = format_pair user' pass' ->
  user = user' /\ pass = pass'.
Proof.
  unfold format_pair. change (lit ":") with [58]. cbn [app].
  revert user'.
  induction user as [|c user IH]; intros [|c' user'] Hu Hu' Heq;
    cbn [app] in Heq.
  - injection Heq as <-. now split.
  - injection Heq as <- _. exfalso. apply Hu'. now left.
  - injection Heq as -> _. exfalso. apply Hu. now left.
  - injection Heq as <- Heq.
    destruct (IH user') as [-> ->]; auto.
    + intros Hin. apply Hu. now right.
    + intros Hin. apply Hu'. now right.
Qed.

(** X1: [authorization] raises exactly when [username] or [password]
    holds a code point that UTF-8 does not encode (a surrogate); the
    error is then [UnicodeEncodeError].  Otherwise it returns a token:
    reading the Base64 octets as ASCII never fails. *)
Theorem authorization_raises_only_on_surrogates (self : Dicom.Settings) :
  (forallb Standard.scalar_value (Dicom.username self) = true ->
   forallb Standard.scalar_value (Dicom.password self) = true ->
   exists token, fst (Dicom.authorization self) = Ok token) /\
  (forallb Standard.scalar_value (Dicom.username self)
   && forallb Standard.scalar_value (Dicom.password self) = false ->
   fst (Dicom.authorization self) = Raise UnicodeEncodeError).
Proof.
  rewrite authorization_run. split.
  - intros -> ->. eauto.
  - intros ->. reflexivity.
Qed.

Lemma authorization_raises_only_on_surrogates_witness :
  (exists token, fst (Dicom.authorization Sample.settings) = Ok token) /\
  fst (Dicom.authorization
         (Dicom.mkSettings [0xD800] (lit "secret") None None false)) =
    Raise UnicodeEncodeError.
Proof.
  split.
  - apply (proj1 (authorization_raises_only_on_surrogates Sample.settings));
      vm_compute; reflexivity.
  - apply (proj2 (authorization_raises_only_on_surrogates
                    (Dicom.mkSettings [0xD800] (lit "secret") None None false))).
    vm_compute. reflexivity.
Defined.

(** X2: a token that [authorization] returns is made of characters of
    the Base64 alphabet followed by at most two [=]; no [=] stands
    anywhere else. *)
Theorem authorization_token_alphabet (self : Dicom.Settings) (token : str) :
  fst (Dicom.authorization self) = Ok token ->
  exists (body : str) (pads : nat),
    token = body ++ repeat b64_pad pads /\
    (pads <= 2)%nat /\
    Forall (fun c => In c b64_alphabet /\ c <> b64_pad) body.
Proof.
  intros Hrun.
  destruct (authorization_ok_octets self token Hrun) as (_ & -> & Hoct).
  destruct (b64encode_body _ Hoct) as (body & Hbody & Halpha).
  exists body. eexists. split; [exact Hbody|]. split.
  - pose proof (Nat.mod_upper_bound
                  (3 - List.length
                         (List.concat
                            (List.map Standard.utf8_octets_of
                               (format_pair (Dicom.username self)
                                  (Dicom.password self)))) mod 3) 3).
    lia.
  - eapply List.Forall_impl; [|exact Halpha]. intros c Hin. split; [exact Hin|].
    intros ->. revert Hin. vm_compute. intuition discriminate.
Qed.

Lemma authorization_token_alphabet_witness :
  exists (body : str) (pads : nat),
    lit "YWxpY2U6c2VjcmV0" = body ++ repeat b64_pad pads /\
    (pads <= 2)%nat /\
    Forall (fun c => In c b64_alphabet /\ c <> b64_pad) body.
Proof.
  apply (authorization_token_alphabet Sample.settings (lit "YWxpY2U6c2VjcmV0")).
  vm_compute. reflexivity.
Defined.

(** X3: a token is never empty and its length is four times the number
    of groups of three octets, rounded up, in the UTF-8 encoding of
    ["username:password"]; that encoding has at least as many octets as
    the text has code points and at most four times as many. *)
Theorem authorization_token_length (self : Dicom.Settings) (token : str) :
  fst (Dicom.authorization self) = Ok token ->
  let text := format_pair (Dicom.username self) (Dicom.password self) in
  exists octets : bytes,
    encode_utf8 text = Ok octets /\
    List.length text =
      (List.length (Dicom.username self) + List.length (Dicom.password self) + 1)%nat /\
    (List.length text <= List.length octets <= 4 * List.length text)%nat /\
    List.length token = (4 * ((List.length octets + 2) / 3))%nat /\
    (4 <= List.length token)%nat.
Proof.
  intros Hrun. cbv zeta.
  destruct (authorization_ok_octets self token Hrun) as (Hscalar & -> & _).
  pose proof (utf8_octets_count _ Hscalar) as Hcount.
  eexists. split.
  { rewrite encode_utf8_standard. unfold Standard.utf8_octets.
    rewrite Hscalar. reflexivity. }
  split; [apply format_pair_length|]. split; [exact Hcount|].
  rewrite b64encode_length. split; [reflexivity|].
  rewrite format_pair_length in Hcount.
  match goal with
  | |- (4 <= 4 * (?n / 3))%nat =>
      assert (1 <= n / 3)%nat by (apply Nat.div_le_lower_bound; lia)
  end.
  lia.
Qed.

Lemma authorization_token_length_witness :
  exists octets : bytes,
    encode_utf8 (lit "alice:secret") = Ok octets /\
    List.length (lit "alice:secret") = (5 + 6 + 1)%nat /\
    (12 <= List.length octets <= 4 * 12)%nat /\
    List.length (lit "YWxpY2U6c2VjcmV0") = (4 * ((List.length octets + 2) / 3))%nat /\
    (4 <= List.length (lit "YWxpY2U6c2VjcmV0"))%nat.
Proof.
  assert (Hrun : fst (Dicom.authorization Sample.settings) =
                 Ok (lit "YWxpY2U6c2VjcmV0")) by (vm_compute; reflexivity).
  exact (authorization_token_length Sample.settings _ Hrun).
Defined.

(** X4: when [username] and [password] are ASCII, [authorization] does
    not raise and the token is the Base64 text of the very code points of
    ["username:password"], of length [4 * ceil((|username| + |password| + 1) / 3)]. *)
Theorem authorization_ascii_credentials (self : Dicom.Settings) :
  Forall (fun ch => ch < 128) (Dicom.username self) ->
  Forall (fun ch => ch < 128) (Dicom.password self) ->
  fst (Dicom.authorization self) =
    Ok (b64encode (format_pair (Dicom.username self) (Dicom.password self))) /\
  List.length (b64encode (format_pair (Dicom.username self) (Dicom.password self))) =
    (4 * ((List.length (Dicom.username self)
           + List.length (Dicom.password self) + 3) / 3))%nat.
Proof.
  intros Hu Hp.
  assert (Hascii : Forall (fun ch => ch < 128)
                     (format_pair (Dicom.username self) (Dicom.password self))).
  { unfold format_pair. apply Forall_app. split; [exact Hu|].
    apply Forall_app. split; [|exact Hp]. now repeat constructor. }
  destruct (utf8_octets_of_ascii _ Hascii) as [Hscalar Hsame].
  split.
  - rewrite authorization_run, <- scalar_pair, Hscalar. now rewrite Hsame.
  - rewrite b64encode_length, format_pair_length. do 2 f_equal. lia.
Qed.

Lemma authorization_ascii_credentials_witness :
  fst (Dicom.authorization Sample.settings) =
    Ok (b64encode (lit "alice:secret")) /\
  List.length (b64encode (lit "alice:secret")) = 16%nat.
Proof.
  apply (authorization_ascii_credentials Sample.settings);
    vm_compute; repeat constructor.
Defined.

(** X5: the token loses nothing of ["username:password"]: two settings
    objects with the same token have the same joined text, and the same
    [username] and [password] when neither [username] holds a colon. *)
Theorem authorization_token_determines_credentials
    (self other : Dicom.Settings) (token : str) :
  fst (Dicom.authorization self) = Ok token ->
  fst (Dicom.authorization other) = Ok token ->
  format_pair (Dicom.username self) (Dicom.password self) =
    format_pair (Dicom.username other) (Dicom.password other) /\
  (~ In 58 (Dicom.username self) -> ~ In 58 (Dicom.username other) ->
   Dicom.username self = Dicom.username other /\
   Dicom.password self = Dicom.password other).
Proof.
  intros Hself Hother.
  assert (Htext : format_pair (Dicom.username self) (Dicom.password self) =
                  format_pair (Dicom.username other) (Dicom.password other)).
  { destruct (authorization_ok_octets self token Hself) as (Hscalar & _ & _).
    apply basic_credentials_inj; [exact Hscalar|].
    rewrite !authorization_standard in Hself, Hother. cbn [fst] in *.
    congruence. }
  split; [exact Htext|]. intros Hu Hu'. now apply format_pair_split.
Qed.

Lemma authorization_token_determines_credentials_witness :
  Dicom.username Sample.settings = lit "alice" /\
  Dicom.password Sample.settings = lit "secret".
Proof.
  apply (authorization_token_determines_credentials
           Sample.settings
           (Dicom.mkSettings (lit "alice") (lit "secret") (Some (lit "7")) None true)
           (lit "YWxpY2U6c2VjcmV0"));
    try (vm_compute; reflexivity);
    vm_compute; intuition discriminate.
Defined.

(** ** The package finder: what an exclude pattern means *)

Lemma fnmatch_literal_cons (p c : ascii) (pat name : list ascii) :
  p <> "*"%char /\ p <> "?"%char /\ p <> "["%char ->
  Fedex.fnmatch (p :: pat) (c :: name) = true <->
  p = c /\ Fedex.fnmatch pat name = true.
Proof.
  intros (Hstar & Hq & _).
  rewrite fnmatch_literal_head by assumption.
  rewrite andb_true_iff, Ascii.eqb_eq. reflexivity.
Qed.

Lemma fnmatch_literal_nil (p : ascii) (pat : list ascii) :
  p <> "*"%char /\ p <> "?"%char /\ p <> "["%char ->
  Fedex.fnmatch (p :: pat) [] = false.
Proof.
  intros (Hstar & _). cbn. apply Ascii.eqb_neq in Hstar. now rewrite Hstar.
Qed.

(** X6: for a pattern of plain characters (none of [*], [?], [[]), the
    pattern followed by [*] matches exactly the names that begin with
    it, and the pattern alone matches exactly itself. *)
Theorem fnmatch_plain_pattern (plain name : list ascii) :
  Forall (fun c => c <> "*" /\ c <> "?" /\ c <> "[")%char plain ->
  (Fedex.fnmatch (plain ++ ["*"%char]) name = true <->
     exists rest, name = plain ++ rest) /\
  (Fedex.fnmatch plain name = true <-> name = plain).
Proof.
  intros Hplain. revert name.
  induction Hplain as [|p plain Hp _ IH]; intros name.
  - split.
    + cbn [app]. rewrite fnmatch_star_only. split; eauto.
    + destruct name; cbn; split; congruence.
  - destruct name as [|c name].
    + cbn [app]. rewrite !fnmatch_literal_nil by assumption.
      split; split; try discriminate. intros [rest Hrest]. discriminate.
    + cbn [app]. rewrite !fnmatch_literal_cons by assumption.
      destruct (IH name) as [IHstar IHeq]. rewrite IHstar, IHeq.
      split; split.
      * intros [-> [rest ->]]. eauto.
      * intros [rest [= -> ->]]. eauto.
      * intros [-> ->]. reflexivity.
      * intros [= -> ->]. auto.
Qed.

Lemma fnmatch_plain_pattern_witness :
  (Fedex.fnmatch (list_ascii_of_string "tests*")
                 (list_ascii_of_string "tests.fedex") = true <->
     exists rest,
       list_ascii_of_string "tests.fedex" = list_ascii_of_string "tests" ++ rest) /\
  (Fedex.fnmatch (list_ascii_of_string "tests")
                 (list_ascii_of_string "tests.fedex") = true <->
     list_ascii_of_string "tests.fedex" = list_ascii_of_string "tests").
Proof.
  apply (fnmatch_plain_pattern (list_ascii_of_string "tests")
           (list_ascii_of_string "tests.fedex")).
  cbn. repeat constructor; discriminate.
Defined.

Lemma setup_packages_filter (found : list string) :
  Fedex.packages (Fedex.setup found) =
    List.filter (fun pkg => negb (String.prefix "tests" pkg)) found.
Proof.
  cbn. unfold Fedex.find_namespace_packages.
  apply List.filter_ext. intros pkg.
  unfold Fedex.matches_any. cbn [existsb].
  now rewrite fnmatch_tests_prefix, orb_false_r.
Qed.

Lemma append_String (c : ascii) (s1 s2 : string) :
  String.append (String c s1) s2 = String c (String.append s1 s2).
Proof. reflexivity. Qed.

Lemma prefix_tests_dotted (parent child : string) :
  String.prefix "tests" (String.append parent (String.append "." child)) =
    String.prefix "tests" parent.
Proof.
  do 5 (destruct parent as [|c parent];
        [ reflexivity
        | rewrite append_String; cbn [String.prefix];
          match goal with
          | |- context [ascii_dec ?a c] =>
              destruct (ascii_dec a c) as [<-|_]; [|reflexivity]
          end ]).
  destruct parent; [reflexivity | rewrite append_String; reflexivity].
Qed.

(** X7: exclusion looks at the start of the dotted name only.  A found
    directory [parent.child] is packaged exactly when [parent] does not
    begin with [tests]: the sub-packages of a top-level [tests] directory
    are left out with it, and a [tests] directory nested in a package is
    packaged. *)
Theorem setup_packages_dotted (found : list string) (parent child : string) :
  let name := String.append parent (String.append "." child) in
  (In name found -> String.prefix "tests" parent = false ->
     In name (Fedex.packages (Fedex.setup found))) /\
  (In name (Fedex.packages (Fedex.setup found)) ->
     In name found /\ String.prefix "tests" parent = false).
Proof.
  intros name. rewrite setup_packages_filter. split.
  - intros Hin Hparent. apply filter_In. split; [exact Hin|].
    unfold name. now rewrite prefix_tests_dotted, Hparent.
  - intros Hin. apply filter_In in Hin as [Hin Hkeep]. split; [exact Hin|].
    unfold name in Hkeep. rewrite prefix_tests_dotted in Hkeep.
    now apply negb_true_iff.
Qed.

Lemma setup_packages_dotted_witness :
  In "purplship.tests"%string
     (Fedex.packages
        (Fedex.setup
           ["purplship"; "purplship.tests"; "tests"; "tests.fedex"]%string)).
Proof.
  apply (proj1 (setup_packages_dotted
                  ["purplship"; "purplship.tests"; "tests"; "tests.fedex"]%string
                  "purplship" "tests")).
  - cbn. auto.
  - reflexivity.
Defined.

(** ** Order queries: scope, order of rows, reads of the data layer *)

Section OrderQueriesScope.

Context {Order RequestContext Identity Value Root : Type}.
Context (user : RequestContext -> option Identity).
Context (visible : RequestContext -> list Order).
Context (reading : string -> Value -> result (Order -> bool)).

#[local] Abbreviation resolve_order :=
  (Orders.resolve_order (Root := Root) user visible reading).
#[local] Abbreviation resolve_orders :=
  (Orders.resolve_orders (Value := Value) (Root := Root) user visible).
#[local] Abbreviation satisfies := (Orders.satisfies reading).
#[local] Abbreviation accepts := (Orders.accepts reading).
#[local] Abbreviation qs_filter := (Orders.qs_filter reading).

(** What it takes for [order] to return a row, and to return [None]. *)
Lemma resolve_order_some
    (self : Root) (info : Orders.ResolveInfo RequestContext)
    (kwargs : gmap string Value) (t : list RequestContext) (row : Order) :
  fst (resolve_order self info kwargs t) = Ok (Some row) ->
  (exists who, user (Orders.context info) = Some who) /\
  accepts kwargs /\
  Orders.first
    (List.filter (satisfies kwargs) (visible (Orders.context info))) = Some row.
Proof.
  rewrite resolve_order_run.
  destruct (user (Orders.context info)) as [who|]; cbn [fst]; [|discriminate].
  destruct (Orders.qs_filter reading kwargs _) as [found|e] eqn:Hfilter;
    cbn [bind]; [|discriminate].
  intros [= Hfirst]. apply qs_filter_ok in Hfilter as [Hacc ->]. eauto.
Qed.

Lemma resolve_order_none
    (self : Root) (info : Orders.ResolveInfo RequestContext)
    (kwargs : gmap string Value) (t : list RequestContext) :
  fst (resolve_order self info kwargs t) = Ok None ->
  accepts kwargs /\
  Orders.first
    (List.filter (satisfies kwargs) (visible (Orders.context info))) = None.
Proof.
  rewrite resolve_order_run.
  destruct (user (Orders.context info)) as [who|]; cbn [fst]; [|discriminate].
  destruct (Orders.qs_filter reading kwargs _) as [found|e] eqn:Hfilter;
    cbn [bind]; [|discriminate].
  intros [= Hfirst]. apply qs_filter_ok in Hfilter as [Hacc ->]. eauto.
Qed.

Lemma first_filter_split (keep : Order -> bool) (qs : list Order) (row : Order) :
  Orders.first (List.filter keep qs) = Some row ->
  exists before after,
    qs = before ++ row :: after /\
    Forall (fun r => keep r = false) before /\
    keep row = true.
Proof.
  induction qs as [|x qs IH]; cbn [List.filter].
  - discriminate.
  - destruct (keep x) eqn:Hx.
    + cbn. intros [= ->]. exists [], qs. repeat split; [constructor | exact Hx].
    + intros Hfirst. destruct (IH Hfirst) as (before & after & -> & Hb & Hrow).
      exists (x :: before), after. repeat split; [now constructor | exact Hrow].
Qed.

Lemma first_filter_none_inv (keep : Order -> bool) (qs : list Order) :
  Orders.first (List.filter keep qs) = None ->
  forall row, In row qs -> keep row = false.
Proof.
  induction qs as [|x qs IH]; cbn [List.filter]; intros Hnone row Hin.
  - destruct Hin.
  - destruct (keep x) eqn:Hx; [discriminate|].
    destruct Hin as [<-|Hin]; [exact Hx | now apply IH].
Qed.

Lemma satisfies_weaken (kwargs kwargs' : gmap string Value) (row : Order) :
  kwargs ⊆ kwargs' ->
  satisfies kwargs' row = true -> satisfies kwargs row = true.
Proof.
  rewrite !satisfies_all_keywords. intros Hsub Hall field v Hfield.
  apply Hall. now apply (lookup_weaken kwargs kwargs').
Qed.

Lemma accepts_weaken (kwargs kwargs' : gmap string Value) :
  kwargs ⊆ kwargs' -> accepts kwargs' -> accepts kwargs.
Proof.
  intros Hsub Hacc field v Hfield.
  apply (Hacc field v). now apply (lookup_weaken kwargs kwargs').
Qed.

Lemma satisfies_empty (row : Order) : satisfies ∅ row = true.
Proof.
  apply satisfies_all_keywords. intros field v Hfield.
  now rewrite lookup_empty in Hfield.
Qed.

Lemma accepts_empty : accepts ∅.
Proof. intros field v Hfield. now rewrite lookup_empty in Hfield. Qed.

(** X8: a row that [order] returns lies within the caller's scope: the
    caller is authenticated, the row is one of those visible to the
    calling context, and every keyword argument holds on it. *)
Theorem resolve_order_within_scope
    (self : Root) (info : Orders.ResolveInfo RequestContext)
    (kwargs : gmap string Value) (t : list RequestContext) (row : Order) :
  fst (resolve_order self info kwargs t) = Ok (Some row) ->
  (exists who, user (Orders.context info) = Some who) /\
  In row (visible (Orders.context info)) /\
  (forall field v, kwargs !! field = Some v ->
     exists test, reading field v = Ok test /\ test row = true).
Proof.
  intros Hrun. apply resolve_order_some in Hrun as (Hauth & _ & Hfirst).
  apply first_filter_some in Hfirst as [Hin Hsat].
  split; [exact Hauth|]. split; [exact Hin|]. now apply satisfies_all_keywords.
Qed.

(** X9: the row that [order] returns is the earliest match: every
    visible row that comes before it fails some keyword argument. *)
Theorem resolve_order_earliest_match
    (self : Root) (info : Orders.ResolveInfo RequestContext)
    (kwargs : gmap string Value) (t : list RequestContext) (row : Order) :
  fst (resolve_order self info kwargs t) = Ok (Some row) ->
  exists before after,
    visible (Orders.context info) = before ++ row :: after /\
    Forall (fun earlier => satisfies kwargs earlier = false) before.
Proof.
  intros Hrun. apply resolve_order_some in Hrun as (_ & _ & Hfirst).
  apply first_filter_split in Hfirst as (before & after & Hsplit & Hb & _).
  eauto.
Qed.

(** X10: each resolver asks the data layer at most once, and only about
    the caller's own context: an authenticated call adds exactly that
    context to the record of reads, an unauthenticated one adds nothing. *)
Theorem resolvers_read_own_scope_once
    (self : Root) (info : Orders.ResolveInfo RequestContext)
    (kwargs : gmap string Value) (t : list RequestContext) :
  let reads :=
    match user (Orders.context info) with
    | Some _ => [Orders.context info]
    | None => []
    end in
  snd (resolve_order self info kwargs t) = t ++ reads /\
  snd (resolve_orders self info kwargs t) = t ++ reads.
Proof.
  rewrite resolve_order_run, resolve_orders_run.
  destruct (user (Orders.context info)); cbn [snd];
    now rewrite ?app_nil_r.
Qed.

(** X11: more keyword arguments never find more.  If [order] finds no
    row for some keyword arguments, then for any larger set of them it
    returns no row either: it evaluates to [None] when the ORM accepts
    the larger set and raises otherwise.  A row found for the larger set
    satisfies the smaller, for which [order] also returns a row. *)
Theorem resolve_order_more_filters
    (self : Root) (info : Orders.ResolveInfo RequestContext)
    (kwargs kwargs' : gmap string Value) (t : list RequestContext) :
  kwargs ⊆ kwargs' ->
  (fst (resolve_order self info kwargs t) = Ok None ->
   (accepts kwargs' -> fst (resolve_order self info kwargs' t) = Ok None) /\
   (~ accepts kwargs' ->
      exists e, fst (resolve_order self info kwargs' t) = Raise e)) /\
  (forall row,
     fst (resolve_order self info kwargs' t) = Ok (Some row) ->
     satisfies kwargs row = true /\
     exists row', fst (resolve_order self info kwargs t) = Ok (Some row')).
Proof.
  intros Hsub. split.
  - intros Hnone.
    pose proof (resolve_order_none _ _ _ _ Hnone) as [_ Hfirst].
    revert Hnone. rewrite !resolve_order_run.
    destruct (user (Orders.context info)) as [who|]; cbn [fst];
      [|discriminate].
    intros _. split.
    + intros Hacc'. rewrite (qs_filter_accepted _ _ _ Hacc'). cbn [bind].
      f_equal. apply first_filter_none. intros row Hin.
      pose proof (first_filter_none_inv _ _ Hfirst row Hin) as Hrow.
      destruct (satisfies kwargs' row) eqn:Hsat'; [|reflexivity].
      now rewrite (satisfies_weaken _ _ _ Hsub Hsat') in Hrow.
    + intros Hnot.
      destruct (qs_filter_refused _ kwargs' (visible (Orders.context info)) Hnot)
        as (field & v & e & _ & _ & Hq).
      exists e. now rewrite Hq.
  - intros row Hrun.
    pose proof (resolve_order_some _ _ _ _ _ Hrun) as ([who Hauth] & Hacc' & Hfirst').
    apply first_filter_some in Hfirst' as [Hin Hsat'].
    pose proof (satisfies_weaken _ _ _ Hsub Hsat') as Hsat.
    split; [exact Hsat|].
    rewrite resolve_order_run, Hauth. cbn [fst].
    rewrite (qs_filter_accepted _ _ _ (accepts_weaken _ _ Hsub Hacc')).
    cbn [bind].
    destruct (Orders.first
                (List.filter (satisfies kwargs) (visible (Orders.context info))))
      as [row'|] eqn:Hfirst; [eauto|].
    pose proof (first_filter_none_inv _ _ Hfirst row Hin). congruence.
Qed.

(** X12: [order] is [orders] followed by [filter] and [first].  When
    [orders] fails, [order] fails in the same way; otherwise [order]
    applies [filter] with its keyword arguments to the rows that [orders]
    returns and takes [first] of the outcome, raising what [filter]
    raises.  With no keyword argument it returns [first] of the rows of
    [orders]. *)
Theorem resolve_order_of_orders
    (self : Root) (info : Orders.ResolveInfo RequestContext)
    (kwargs kwargs' : gmap string Value) (t : list RequestContext) :
  fst (resolve_order self info kwargs t) =
    bind (fst (resolve_orders self info kwargs' t))
         (fun rows =>
            bind (qs_filter kwargs rows)
                 (fun found => Ok (Orders.first found))) /\
  fst (resolve_order self info ∅ t) =
    bind (fst (resolve_orders self info kwargs' t))
         (fun rows => Ok (Orders.first rows)).
Proof.
  rewrite !resolve_order_run, resolve_orders_run.
  destruct (user (Orders.context info)); cbn [fst bind];
    [|split; reflexivity].
  split; [reflexivity|].
  rewrite (qs_filter_accepted _ _ _ accepts_empty). cbn [bind].
  do 2 f_equal.
  induction (visible (Orders.context info)) as [|row rows IH];
    [reflexivity|].
  cbn [List.filter]. now rewrite satisfies_empty, IH.
Qed.

End OrderQueriesScope.

Lemma resolve_order_within_scope_witness :
  In 5%nat (Sample.visible (Orders.context Sample.alice)).
Proof.
  apply (resolve_order_within_scope Sample.logged_in Sample.visible Sample.reading
           tt Sample.alice (Sample.by_id 5) [] 5%nat).
  vm_compute. reflexivity.
Defined.

Lemma resolve_order_earliest_match_witness :
  exists before after,
    Sample.visible (Orders.context Sample.alice) = before ++ 5%nat :: after /\
    Forall (fun earlier =>
              Orders.satisfies Sample.reading (Sample.by_id 5) earlier = false)
           before.
Proof.
  apply (resolve_order_earliest_match Sample.logged_in Sample.visible Sample.reading
           tt Sample.alice (Sample.by_id 5) [] 5%nat).
  vm_compute. reflexivity.
Defined.

Lemma resolve_order_more_filters_witness :
  fst (Sample.resolve_order tt Sample.alice
         (<["id__gte"%string := 1%nat]> (Sample.by_id 4)) []) = Ok None /\
  exists e,
    fst (Sample.resolve_order tt Sample.alice
           (<["bogus"%string := 1%nat]> (Sample.by_id 4)) []) = Raise e.
Proof.
  split.
  - apply (proj1 (resolve_order_more_filters
                    Sample.logged_in Sample.visible Sample.reading
                    tt Sample.alice
                    (Sample.by_id 4)
                    (<["id__gte"%string := 1%nat]> (Sample.by_id 4)) []
                    ltac:(apply insert_subseteq; vm_compute; reflexivity))).
    + vm_compute. reflexivity.
    + intros field v Hfield.
      apply lookup_insert_Some in Hfield as [[<- <-]|[_ Hfield]].
      * eexists. reflexivity.
      * now apply sample_accepts_id in Hfield.
  - apply (proj1 (resolve_order_more_filters
                    Sample.logged_in Sample.visible Sample.reading
                    tt Sample.alice
                    (Sample.by_id 4)
                    (<["bogus"%string := 1%nat]> (Sample.by_id 4)) []
                    ltac:(apply insert_subseteq; vm_compute; reflexivity))).
    + vm_compute. reflexivity.
    + intros Hacc. destruct (Hacc "bogus"%string 1%nat) as [test Htest].
      * apply lookup_insert_eq.
      * vm_compute in Htest. discriminate.
Defined.
